(** * go-minercraft: fee quotes, envelope verification and best-quote selection

    A shallow embedding of [fee_quote.go]: the fee calculator [GetFee], the
    envelope parser [parseResponseIntoQuote], the single-peer [FeeQuote] and
    the aggregation [BestQuote], followed by the properties of the design
    document that concern them.  The sources hold a second [BestQuote]
    ([best_quote.go], over uint64) whose helpers are not among them; the one
    embedded here is the one of [fee_quote.go], next to the functions it
    calls.

    Conventions of the embedding:
    - a Go [int64] is a [Z]; multiplication wraps modulo [2^64] and division
      truncates toward zero, both written out in [Go.int64_mul] and
      [Go.int64_div];
    - a Go [string] is a [string] of bytes;
    - a Go pointer that may be [nil] is an [option];
    - a Go [error] is the message it carries; a run-time panic is an outcome
      of its own ([Go.Panics]), distinct from a returned error;
    - the collaborators that are not part of the repository (JSON decoding,
      SHA-256, the DER verifier, the HTTP transport) are fields of the record
      [Collaborators], over which every definition is parameterised. *)

From Stdlib Require Import ZArith List String Ascii Bool Lia Permutation DecimalString.
Import ListNotations.

Local Open Scope string_scope.
Local Open Scope Z_scope.

(** ** The Go run-time pieces the source relies on *)

Module Go.

(** The message of a Go [error] value. *)
Inductive error : Type :=
| errors_New (msg : string).

(** Run-time panics the modelled code can raise. *)
Inductive runtime_panic : Type :=
| NilDereference   (* invalid memory address or nil pointer dereference *)
| DivideByZero.    (* integer divide by zero *)

(** What a call does: it returns a value or it panics. *)
Inductive outcome (A : Type) : Type :=
| Returns (a : A)
| Panics (p : runtime_panic).

Arguments Returns {A} a.
Arguments Panics {A} p.

Definition bind {A B : Type} (m : outcome A) (k : A -> outcome B) : outcome B :=
  match m with
  | Returns a => k a
  | Panics p => Panics p
  end.

(** *** int64 *)

Definition MinInt64 : Z := - 2 ^ 63.
Definition MaxInt64 : Z := 2 ^ 63 - 1.

Definition is_int64 (z : Z) : Prop := MinInt64 <= z <= MaxInt64.

(** Two's-complement wrap-around of a mathematical integer into int64. *)
Definition wrap64 (z : Z) : Z := (z + 2 ^ 63) mod 2 ^ 64 - 2 ^ 63.

Definition int64_mul (a b : Z) : Z := wrap64 (a * b).

(** Go's [/] on int64: truncated toward zero, a run-time panic on a zero
    divisor, and [MinInt64 / -1] wrapping back to [MinInt64]. *)
Definition int64_div (a b : Z) : outcome Z :=
  if b =? 0 then Panics DivideByZero else Returns (wrap64 (Z.quot a b)).

(** *** strings *)

Definition byte (c : ascii) : Z := Z.of_N (N_of_ascii c).

Definition between (lo hi : Z) (c : ascii) : bool :=
  (lo <=? byte c) && (byte c <=? hi).

Definition RuneError : Z := 0xFFFD.

Definition rune2 (c0 c1 : ascii) : Z :=
  Z.lor (Z.shiftl (Z.land (byte c0) 0x1F) 6) (Z.land (byte c1) 0x3F).

Definition rune3 (c0 c1 c2 : ascii) : Z :=
  Z.lor (Z.shiftl (Z.land (byte c0) 0x0F) 12)
        (Z.lor (Z.shiftl (Z.land (byte c1) 0x3F) 6) (Z.land (byte c2) 0x3F)).

Definition rune4 (c0 c1 c2 c3 : ascii) : Z :=
  Z.lor (Z.shiftl (Z.land (byte c0) 0x07) 18)
        (Z.lor (Z.shiftl (Z.land (byte c1) 0x3F) 12)
               (Z.lor (Z.shiftl (Z.land (byte c2) 0x3F) 6) (Z.land (byte c3) 0x3F))).

(** The runes a [for range] over the string (or repeated
    [utf8.DecodeRuneInString]) yields: an ill-formed byte decodes to
    [RuneError] and consumes one byte; over-long forms and surrogates are
    ill-formed. *)
Fixpoint runes (s : string) : list Z :=
  match s with
  | EmptyString => []
  | String c0 s1 =>
    if byte c0 <? 0x80 then byte c0 :: runes s1
    else
      match s1 with
      | String c1 s2 =>
        if between 0xC2 0xDF c0 && between 0x80 0xBF c1 then
          rune2 c0 c1 :: runes s2
        else
          match s2 with
          | String c2 s3 =>
            if between 0xE0 0xEF c0
               && between (if byte c0 =? 0xE0 then 0xA0 else 0x80)
                          (if byte c0 =? 0xED then 0x9F else 0xBF) c1
               && between 0x80 0xBF c2 then
              rune3 c0 c1 c2 :: runes s3
            else
              match s3 with
              | String c3 s4 =>
                if between 0xF0 0xF4 c0
                   && between (if byte c0 =? 0xF0 then 0x90 else 0x80)
                              (if byte c0 =? 0xF4 then 0x8F else 0xBF) c1
                   && between 0x80 0xBF c2
                   && between 0x80 0xBF c3 then
                  rune4 c0 c1 c2 c3 :: runes s4
                else RuneError :: runes s1
              | EmptyString => RuneError :: runes s1
              end
          | EmptyString => RuneError :: runes s1
          end
      | EmptyString => RuneError :: runes s1
      end
  end.

(** One step of [strings.EqualFold]: two runes are equal under Unicode
    simple case folding.  Between two ASCII runes that is upper/lower case
    of a letter.  The orbit of [unicode.SimpleFold] is written out for the
    ASCII letters that have a non-ASCII member (K, k, U+212A and S, s,
    U+017F); folding between two distinct non-ASCII runes is not tabulated,
    so the definition is exact whenever one of the two strings is ASCII, as
    every constant the source compares against is. *)
Definition foldEq (r1 r2 : Z) : bool :=
  if r1 =? r2 then true
  else
    let sr := Z.min r1 r2 in
    let tr := Z.max r1 r2 in
    if tr <? 0x80 then
      (0x41 <=? sr) && (sr <=? 0x5A) && (tr =? sr + 0x20)
    else
      (((sr =? 0x4B) || (sr =? 0x6B)) && (tr =? 0x212A))
      || (((sr =? 0x53) || (sr =? 0x73)) && (tr =? 0x17F)).

Fixpoint EqualFold_runes (s t : list Z) : bool :=
  match s, t with
  | [], [] => true
  | sr :: s', tr :: t' => foldEq sr tr && EqualFold_runes s' t'
  | _, _ => false
  end.

(** [strings.EqualFold]. *)
Definition EqualFold (s t : string) : bool :=
  EqualFold_runes (runes s) (runes t).

(** [strings.Replace(s, old, new, -1)] for a one-byte [old]. *)
Fixpoint Replace (s : string) (old : ascii) (new : string) : string :=
  match s with
  | EmptyString => EmptyString
  | String c s' =>
    if Ascii.eqb c old then new ++ Replace s' old new
    else String c (Replace s' old new)
  end.

(** [len(s) > 0]. *)
Definition nonempty (s : string) : bool :=
  match s with
  | EmptyString => false
  | String _ _ => true
  end.

End Go.

Import Go.

Notation "x <- m ;; k" := (Go.bind m (fun x => k))
  (at level 61, m at next level, right associativity).

(** ** Constants *)

Definition FeeTypeData : string := "data".
Definition FeeTypeStandard : string := "standard".
Definition FeeCategoryMining : string := "mining".
Definition FeeCategoryRelay : string := "relay".

(** The reference transaction size [BestQuote] scores every quote at. *)
Definition referenceBytes : Z := 1000.

(** ** Data model *)

(** [feeAmount] is the actual fee for the given feeType. *)
Record feeAmount : Type := {
  Bytes : Z;
  Satoshis : Z
}.

(** [feeType] is the corresponding type of fee (standard or data); the two
    rates are pointers in the source and may be nil after decoding. *)
Record feeType : Type := {
  FeeType : string;
  MiningFee : option feeAmount;
  RelayFee : option feeAmount
}.

(** [FeePayload] is the unmarshalled version of the payload envelope.
    [MinerReputation] is an untyped value the code never inspects; it is kept
    as its raw text.  [Fees] is a slice of pointers. *)
Record FeePayload : Type := {
  APIVersion : string;
  Timestamp : string;
  ExpirationTime : string;
  MinerID : string;
  CurrentHighestBlockHash : string;
  CurrentHighestBlockHeight : Z;
  MinerReputation : option string;
  Fees : list (option feeType)
}.

(** Modelled from the spec: the declaration of [Miner] is not among the
    sources; its fields are the ones the source reads ([Name], [URL],
    [Token]), the spec's Peer with a name, a base URL and an optional auth
    token. *)
Record Miner : Type := {
  Name : string;
  URL : string;
  Token : string
}.

(** Modelled from the spec: the declaration of [RequestResponse] is not among
    the sources; the source reads its [Error] and [BodyContents], the spec's
    RawOutcome with a nilable transport error and the raw response bytes. *)
Record RequestResponse : Type := {
  Error : option error;
  BodyContents : string
}.

(** Modelled from the spec: the declaration of [Client] is not among the
    sources; the source reads only its list of configured miners. *)
Record Client : Type := {
  Miners : list Miner
}.

(** [FeeQuoteResponse] is the raw response from the Merchant API request.
    The source field [Miner] is [ResponseMiner] here (the name [Miner] is the
    record of a miner). *)
Record FeeQuoteResponse : Type := {
  ResponseMiner : option Miner;
  Quote : option FeePayload;
  Payload : string;
  Validated : bool;
  Signature : string;
  PublicKey : string;
  Encoding : string;
  MimeType : string
}.

(** The zero value of [FeeQuoteResponse], as [var bestQuote FeeQuoteResponse]
    and the named result of [parseResponseIntoQuote] start out. *)
Definition zeroFeeQuoteResponse : FeeQuoteResponse := {|
  ResponseMiner := None;
  Quote := None;
  Payload := EmptyString;
  Validated := false;
  Signature := EmptyString;
  PublicKey := EmptyString;
  Encoding := EmptyString;
  MimeType := EmptyString
|}.

Definition set_ResponseMiner (m : option Miner) (r : FeeQuoteResponse) : FeeQuoteResponse := {|
  ResponseMiner := m;
  Quote := Quote r;
  Payload := Payload r;
  Validated := Validated r;
  Signature := Signature r;
  PublicKey := PublicKey r;
  Encoding := Encoding r;
  MimeType := MimeType r
|}.

Definition set_Quote (q : option FeePayload) (r : FeeQuoteResponse) : FeeQuoteResponse := {|
  ResponseMiner := ResponseMiner r;
  Quote := q;
  Payload := Payload r;
  Validated := Validated r;
  Signature := Signature r;
  PublicKey := PublicKey r;
  Encoding := Encoding r;
  MimeType := MimeType r
|}.

Definition set_Payload (p : string) (r : FeeQuoteResponse) : FeeQuoteResponse := {|
  ResponseMiner := ResponseMiner r;
  Quote := Quote r;
  Payload := p;
  Validated := Validated r;
  Signature := Signature r;
  PublicKey := PublicKey r;
  Encoding := Encoding r;
  MimeType := MimeType r
|}.

Definition set_Validated (v : bool) (r : FeeQuoteResponse) : FeeQuoteResponse := {|
  ResponseMiner := ResponseMiner r;
  Quote := Quote r;
  Payload := Payload r;
  Validated := v;
  Signature := Signature r;
  PublicKey := PublicKey r;
  Encoding := Encoding r;
  MimeType := MimeType r
|}.

(** [feeResult] is a shim for storing miner and http response data.  The
    source field [Miner] is [ResultMiner] here. *)
Record feeResult : Type := {
  Response : RequestResponse;
  ResultMiner : option Miner
}.

(** ** The fee calculator *)

(** [fmt.Errorf] of the four messages of [GetFee]. *)
Definition errFeeTypeNotRecognized (feeType : string) : error :=
  errors_New ("feeType " ++ feeType ++ " is not recognized").

Definition errFeeCategoryNotRecognized (feeCategory : string) : error :=
  errors_New ("feeCategory " ++ feeCategory ++ " is not recognized").

Definition errZeroFee : error :=
  errors_New "warning: fee calculation was 0".

Definition errFeeTypeNotFound (feeType : string) : error :=
  errors_New ("feeType " ++ feeType ++ " is not found in fees").

(** The rate of the requested category in one entry, and the fee it gives:
    [(rate.Satoshis * txBytes) / rate.Bytes] in int64.  Reading a field of a
    nil rate panics before the division is attempted. *)
Definition calcFee (fee : feeType) (feeCategory : string) (txBytes : Z) : outcome Z :=
  if EqualFold feeCategory FeeCategoryMining then
    match MiningFee fee with
    | None => Panics NilDereference
    | Some rate => int64_div (int64_mul (Satoshis rate) txBytes) (Bytes rate)
    end
  else
    match RelayFee fee with
    | None => Panics NilDereference
    | Some rate => int64_div (int64_mul (Satoshis rate) txBytes) (Bytes rate)
    end.

(** The loop of [GetFee] over [f.Fees]. *)
Fixpoint GetFee_loop (fees : list (option feeType)) (feeCategory feeType : string)
    (txBytes : Z) : outcome (Z * option error) :=
  match fees with
  | [] => Returns (1, Some (errFeeTypeNotFound feeType))
  | None :: _ => Panics NilDereference
  | Some fee :: rest =>
    if String.eqb (FeeType fee) feeType then
      c <- calcFee fee feeCategory txBytes ;;
      if negb (c =? 0) then Returns (c, None)
      else Returns (1, Some errZeroFee)
    else GetFee_loop rest feeCategory feeType txBytes
  end.

(** [GetFee] will return the fee for the given txBytes.  The receiver is a
    pointer: the two parameter checks come before its first dereference. *)
Definition GetFee (f : option FeePayload) (feeCategory feeType : string)
    (txBytes : Z) : outcome (Z * option error) :=
  if negb (EqualFold feeType FeeTypeData) && negb (EqualFold feeType FeeTypeStandard) then
    Returns (0, Some (errFeeTypeNotRecognized feeType))
  else if negb (EqualFold feeCategory FeeCategoryMining)
          && negb (EqualFold feeCategory FeeCategoryRelay) then
    Returns (0, Some (errFeeCategoryNotRecognized feeCategory))
  else
    match f with
    | None => Panics NilDereference
    | Some f => GetFee_loop (Fees f) feeCategory feeType txBytes
    end.


(** ** Collaborators outside the repository *)

(** The library calls the source makes.  [json_Unmarshal_FeeQuoteResponse]
    decodes a body into an existing response (the fields it finds overwrite
    the ones already set, the rest are kept) and [json_Unmarshal_FeePayload]
    decodes into the [Quote] pointer; both may fail after a partial update.
    [bitcoin_VerifyMessageDER] returns the verdict and an error.
    [httpRequest] is the transport of the client. *)
Record Collaborators : Type := {
  Digest : Type;
  json_Unmarshal_FeeQuoteResponse :
    string -> FeeQuoteResponse -> FeeQuoteResponse * option error;
  json_Unmarshal_FeePayload :
    string -> option FeePayload -> option FeePayload * option error;
  sha256_Sum256 : string -> Digest;
  bitcoin_VerifyMessageDER : Digest -> string -> string -> bool * option error;
  httpRequest :
    Client -> string -> string -> string -> option string -> Z -> RequestResponse
}.

Definition http_MethodGet : string := "GET".
Definition http_StatusOK : Z := 200.

Definition errMinerNil : error := errors_New "miner was nil".

Definition errFailedGettingQuotes (name : string) : error :=
  errors_New ("failed getting quotes from: " ++ name).

Section Quotes.

Variable E : Collaborators.

(** The second step of [parseResponseIntoQuote]: if we have a valid
    payload, remove all escaped slashes from it, store the result back in
    [response.Payload] and unmarshal it into [response.Quote]. *)
Definition unmarshalPayload (response : FeeQuoteResponse)
    : FeeQuoteResponse * option error :=
  if nonempty (Payload response) then
    let response := set_Payload (Replace (Payload response) "\" EmptyString) response in
    let (quote, err) := json_Unmarshal_FeePayload E (Payload response) (Quote response) in
    (set_Quote quote response, err)
  else (response, None).

(** The third step: validate the signature if found, verifying in DER
    format the SHA-256 digest of [response.Payload] as it stands at that
    point.  [response.Validated] is assigned whatever the verifier
    returns, also next to an error. *)
Definition validateSignature (response : FeeQuoteResponse)
    : FeeQuoteResponse * option error :=
  if nonempty (Signature response) && nonempty (PublicKey response) then
    let (validated, err) :=
      bitcoin_VerifyMessageDER E
        (sha256_Sum256 E (Payload response))
        (PublicKey response)
        (Signature response) in
    (set_Validated validated response, err)
  else (response, None).

(** [parseResponseIntoQuote] will convert the HTTP response into a struct
    and also unmarshal the payload JSON data.  The results are named in
    the source: every [return] hands back the response as built so far,
    together with the error. *)
Definition parseResponseIntoQuote (result : feeResult)
    : FeeQuoteResponse * option error :=
  let response := set_ResponseMiner (ResultMiner result) zeroFeeQuoteResponse in
  let (response, err) :=
    json_Unmarshal_FeeQuoteResponse E (BodyContents (Response result)) response in
  match err with
  | Some e => (response, Some e)
  | None =>
    let (response, err) := unmarshalPayload response in
    match err with
    | Some e => (response, Some e)
    | None => validateSignature response
    end
  end.

(** [getQuote] will fire the HTTP request to retrieve the fee quote. *)
Definition getQuote (client : Client) (miner : Miner) : feeResult := {|
  Response :=
    httpRequest E client http_MethodGet
      ("https://" ++ URL miner ++ "/mapi/feeQuote")
      (Token miner) None http_StatusOK;
  ResultMiner := Some miner
|}.

(** [FeeQuote] will fire a Merchant API request to retrieve the fees from
    a given miner. *)
Definition FeeQuote (c : Client) (miner : option Miner)
    : option FeeQuoteResponse * option error :=
  match miner with
  | None => (None, Some errMinerNil)
  | Some miner =>
    let result := getQuote c miner in
    match Error (Response result) with
    | Some e => (None, Some e)
    | None =>
      let (response, err) := parseResponseIntoQuote result in
      match err with
      | Some e => (None, Some e)
      | None =>
        match Quote response with
        | None => (None, Some (errFailedGettingQuotes (Name miner)))
        | Some quote =>
          match Fees quote with
          | [] => (None, Some (errFailedGettingQuotes (Name miner)))
          | _ :: _ => (Some response, None)
          end
        end
      end
    end
  end.

(** The loop of [BestQuote] over the closed results channel, with the two
    variables it updates, [bestRate] and [bestQuote]. *)
Fixpoint BestQuote_loop (feeCategory feeType : string) (results : list feeResult)
    (bestRate : Z) (bestQuote : FeeQuoteResponse)
    : outcome (option FeeQuoteResponse * option error) :=
  match results with
  | [] => Returns (Some bestQuote, None)
  | result :: rest =>
    match Error (Response result) with
    | Some e => Returns (None, Some e)
    | None =>
      let (quote, err) := parseResponseIntoQuote result in
      match err with
      | Some e => Returns (None, Some e)
      | None =>
        if bestRate =? 0 then
          r <- GetFee (Quote quote) feeCategory feeType referenceBytes ;;
          match snd r with
          | Some e => Returns (None, Some e)
          | None => BestQuote_loop feeCategory feeType rest (fst r) quote
          end
        else
          r <- GetFee (Quote quote) feeCategory feeType referenceBytes ;;
          match snd r with
          | Some e => Returns (None, Some e)
          | None =>
            if fst r <? bestRate then
              BestQuote_loop feeCategory feeType rest (fst r) quote
            else
              BestQuote_loop feeCategory feeType rest bestRate bestQuote
          end
      end
    end
  end.

(** What [BestQuote] returns once the results have come out of the channel
    in the order [results]. *)
Definition BestQuote_drain (feeCategory feeType : string) (results : list feeResult)
    : outcome (option FeeQuoteResponse * option error) :=
  BestQuote_loop feeCategory feeType results 0 zeroFeeQuoteResponse.

(** [BestQuote] will check all known miners and compare rates, returning
    the best rate/quote.  One routine per miner sends its [getQuote] result
    into a channel with room for all of them; the channel is drained after
    all routines are done, so the order of the results is any permutation
    of the miners' results.  [BestQuote c feeCategory feeType out] holds
    when [out] is what the call produces under one such order. *)
Definition BestQuote (c : Client) (feeCategory feeType : string)
    (out : outcome (option FeeQuoteResponse * option error)) : Prop :=
  exists results : list feeResult,
    Permutation results (map (getQuote c) (Miners c))
    /\ BestQuote_drain feeCategory feeType results = out.

End Quotes.

(** ** Vocabulary of the statements *)

(** [feeType] is accepted by the first check of [GetFee]. *)
Definition validFeeType (ft : string) : bool :=
  EqualFold ft FeeTypeData || EqualFold ft FeeTypeStandard.

(** [feeCategory] is accepted by the second check of [GetFee]. *)
Definition validFeeCategory (feeCategory : string) : bool :=
  EqualFold feeCategory FeeCategoryMining || EqualFold feeCategory FeeCategoryRelay.

(** The rate of an entry that a category asks for. *)
Definition requestedRate (fee : feeType) (feeCategory : string) : option feeAmount :=
  if EqualFold feeCategory FeeCategoryMining then MiningFee fee else RelayFee fee.

(** [fee] is the entry the scan of [fees] stops at for the tag [ft]: the
    entries before it are present and carry another tag, byte for byte. *)
Definition firstMatch (fees : list (option feeType)) (fee : feeType) (ft : string) : Prop :=
  exists (pre : list feeType) (post : list (option feeType)),
    fees = (map Some pre ++ Some fee :: post)%list
    /\ Forall (fun e => FeeType e <> ft) pre
    /\ FeeType fee = ft.

(** A schedule with the given entries and nothing else of interest. *)
Definition scheduleOf (fees : list (option feeType)) : FeePayload := {|
  APIVersion := "0.1.0";
  Timestamp := "2020-10-07T21:13:04.335Z";
  ExpirationTime := "2020-10-07T21:23:04.335Z";
  MinerID := "0211ccfc29e3058b770f3cf3eb34b0b2fd2293057a994d4d275121be4151cdf087";
  CurrentHighestBlockHash := "000000000000000000edb30c3bbbc8e6a07e522e85522e6a213f7e933e6e2d8d";
  CurrentHighestBlockHeight := 655874;
  MinerReputation := None;
  Fees := fees
|}.

Definition rate (satoshis bytes : Z) : option feeAmount :=
  Some {| Bytes := bytes; Satoshis := satoshis |}.

(** An entry with both rates present. *)
Definition feeEntry (tag : string) (mining relay : option feeAmount) : option feeType :=
  Some {| FeeType := tag; MiningFee := mining; RelayFee := relay |}.

(** The winner of a drain over scored quotes: the running best is replaced
    only by a strictly smaller fee. *)
Fixpoint firstMin (best : FeeQuoteResponse * Z) (l : list (FeeQuoteResponse * Z))
    : FeeQuoteResponse * Z :=
  match l with
  | [] => best
  | x :: l' => firstMin (if snd x <? snd best then x else best) l'
  end.

(** The two variables of the loop of [BestQuote] after one more scored
    quote. *)
Definition keepBest (st : FeeQuoteResponse * Z) (x : FeeQuoteResponse * Z)
    : FeeQuoteResponse * Z :=
  if snd st =? 0 then x
  else if snd x <? snd st then x else st.

Section Scored.

Variable E : Collaborators.
Variables feeCategory ft : string.

(** The result of one peer goes through the loop of [BestQuote] without an
    error: the fetch succeeded, the response parses into [quote] and the
    calculator scores it [fee] at the reference size. *)
Definition scores (result : feeResult) (x : FeeQuoteResponse * Z) : Prop :=
  Error (Response result) = None
  /\ parseResponseIntoQuote E result = (fst x, None)
  /\ GetFee (Quote (fst x)) feeCategory ft referenceBytes = Returns (snd x, None).

End Scored.

(** ** A symbolic instance of the collaborators

    To evaluate the code on concrete peers the collaborators are instantiated
    symbolically: a digest is the message it was computed from (a hash
    without collisions), a signature is the pair of the signing key and the
    signed digest, the JSON decoders invert a printer of JSON text over the
    documents listed in the instance, and the transport answers from a table
    indexed by URL. *)

Module Symbolic.

(** *** JSON text *)

Definition dq : ascii := ascii_of_nat 34.

Definition jstring (s : string) : string :=
  String dq (Replace (Replace s "\" "\\") dq (String "\" (String dq EmptyString)))
  ++ String dq EmptyString.

Definition jnumber (z : Z) : string := NilZero.string_of_int (Z.to_int z).

Definition jfield (key value : string) : string := jstring key ++ ":" ++ value.

Definition jobject (fields : list string) : string :=
  "{" ++ String.concat "," fields ++ "}".

Definition jarray (items : list string) : string :=
  "[" ++ String.concat "," items ++ "]".

Definition jrate (r : option feeAmount) : string :=
  match r with
  | None => "null"
  | Some r => jobject [jfield "satoshis" (jnumber (Satoshis r));
                       jfield "bytes" (jnumber (Bytes r))]
  end.

Definition jfee (fee : option feeType) : string :=
  match fee with
  | None => "null"
  | Some fee => jobject [jfield "feeType" (jstring (FeeType fee));
                         jfield "miningFee" (jrate (MiningFee fee));
                         jfield "relayFee" (jrate (RelayFee fee))]
  end.

(** The text of a schedule, as in the example of the source. *)
Definition jpayload (f : FeePayload) : string :=
  jobject [jfield "apiVersion" (jstring (APIVersion f));
           jfield "timestamp" (jstring (Timestamp f));
           jfield "expiryTime" (jstring (ExpirationTime f));
           jfield "minerId" (jstring (MinerID f));
           jfield "currentHighestBlockHash" (jstring (CurrentHighestBlockHash f));
           jfield "currentHighestBlockHeight" (jnumber (CurrentHighestBlockHeight f));
           jfield "minerReputation" "null";
           jfield "fees" (jarray (map jfee (Fees f)))].

(** The text of an envelope around a payload string. *)
Definition jenvelope (payload signature publicKey : string) : string :=
  jobject [jfield "payload" (jstring payload);
           jfield "signature" (jstring signature);
           jfield "publicKey" (jstring publicKey);
           jfield "encoding" (jstring "UTF-8");
           jfield "mimetype" (jstring "application/json")].

(** *** Symbolic cryptography *)

Definition sign (publicKey digest : string) : string :=
  "sig(" ++ publicKey ++ "," ++ digest ++ ")".

Definition verify (digest publicKey signature : string) : bool * option error :=
  if prefix "sig(" signature then (String.eqb signature (sign publicKey digest), None)
  else (false, Some (errors_New "malformed signature: too short")).

(** *** The peers *)

Definition key : string :=
  "0211ccfc29e3058b770f3cf3eb34b0b2fd2293057a994d4d275121be4151cdf087".

Definition standardOnly (mining : option feeAmount) : FeePayload :=
  scheduleOf [feeEntry "standard" mining (rate 250 1000)].

(** A schedule of 500 satoshis per 1000 bytes, one of 400, one whose fee at
    the reference size is below one satoshi, one with a zero byte
    denominator, one without a mining rate and one with a negative rate. *)
Definition schedule500 : FeePayload := standardOnly (rate 500 1000).
Definition schedule400 : FeePayload := standardOnly (rate 400 1000).
Definition scheduleTiny : FeePayload := standardOnly (rate 1 2000).
Definition scheduleZeroBytes : FeePayload := standardOnly (rate 500 0).
Definition scheduleNoRate : FeePayload := standardOnly None.
Definition scheduleNegative : FeePayload := standardOnly (rate (-5) 1000).

(** A schedule whose text carries an escaped solidus on the wire: the
    payload string of the envelope contains backslashes, which
    [parseResponseIntoQuote] removes before decoding. *)
Definition scheduleSlash : FeePayload := {|
  APIVersion := "0.1.0/beta";
  Timestamp := Timestamp schedule500;
  ExpirationTime := ExpirationTime schedule500;
  MinerID := MinerID schedule500;
  CurrentHighestBlockHash := CurrentHighestBlockHash schedule500;
  CurrentHighestBlockHeight := CurrentHighestBlockHeight schedule500;
  MinerReputation := None;
  Fees := Fees schedule500
|}.

Definition wireSlash : string := Replace (jpayload scheduleSlash) "/" "\/".

Definition knownSchedules : list FeePayload :=
  [schedule500; schedule400; scheduleTiny; scheduleZeroBytes; scheduleNoRate;
   scheduleNegative; scheduleSlash].

(** The envelopes the peers send: payload string, signature, public key. *)
Definition envelope500 : string * string * string :=
  (jpayload schedule500, sign key (jpayload schedule500), key).
Definition envelope400 : string * string * string :=
  (jpayload schedule400, sign key (jpayload schedule400), key).
Definition envelopeTiny : string * string * string :=
  (jpayload scheduleTiny, sign key (jpayload scheduleTiny), key).
Definition envelopeZeroBytes : string * string * string :=
  (jpayload scheduleZeroBytes, sign key (jpayload scheduleZeroBytes), key).
Definition envelopeNoRate : string * string * string :=
  (jpayload scheduleNoRate, sign key (jpayload scheduleNoRate), key).
Definition envelopeNegative : string * string * string :=
  (jpayload scheduleNegative, sign key (jpayload scheduleNegative), key).
(** signed over the payload string as it travels *)
Definition envelopeSlash : string * string * string :=
  (wireSlash, sign key wireSlash, key).
(** signed by somebody else's key *)
Definition envelopeForged : string * string * string :=
  (jpayload schedule400, sign "02ffff" (jpayload schedule400), key).

Definition knownEnvelopes : list (string * string * string) :=
  [envelope500; envelope400; envelopeTiny; envelopeZeroBytes; envelopeNoRate;
   envelopeNegative; envelopeSlash; envelopeForged].

Definition bodyOf (env : string * string * string) : string :=
  let '(payload, signature, publicKey) := env in jenvelope payload signature publicKey.

(** *** The decoders *)

Definition unmarshalEnvelope (body : string) (response : FeeQuoteResponse)
    : FeeQuoteResponse * option error :=
  match find (fun env => String.eqb (bodyOf env) body) knownEnvelopes with
  | Some (payload, signature, publicKey) =>
    ({| ResponseMiner := ResponseMiner response;
        Quote := Quote response;
        Payload := payload;
        Validated := Validated response;
        Signature := signature;
        PublicKey := publicKey;
        Encoding := "UTF-8";
        MimeType := "application/json" |}, None)
  | None =>
    (response, Some (errors_New "invalid character '<' looking for beginning of value"))
  end.

Definition unmarshalSchedule (text : string) (quote : option FeePayload)
    : option FeePayload * option error :=
  match find (fun f => String.eqb (jpayload f) text) knownSchedules with
  | Some f => (Some f, None)
  | None => (quote, Some (errors_New "invalid character in string escape code"))
  end.

(** *** The transport *)

Definition miner (name : string) : Miner :=
  {| Name := name; URL := name ++ ".example"; Token := EmptyString |}.

Definition ok (env : string * string * string) : RequestResponse :=
  {| Error := None; BodyContents := bodyOf env |}.

Definition errStatus : error := errors_New "status code: 500 does not match 200".

Definition network : list (string * RequestResponse) :=
  [("https://alpha.example/mapi/feeQuote", ok envelope500);
   ("https://beta.example/mapi/feeQuote", ok envelope400);
   ("https://tiny.example/mapi/feeQuote", ok envelopeTiny);
   ("https://zero.example/mapi/feeQuote", ok envelopeZeroBytes);
   ("https://norate.example/mapi/feeQuote", ok envelopeNoRate);
   ("https://negative.example/mapi/feeQuote", ok envelopeNegative);
   ("https://slash.example/mapi/feeQuote", ok envelopeSlash);
   ("https://forged.example/mapi/feeQuote", ok envelopeForged);
   ("https://html.example/mapi/feeQuote",
    {| Error := None; BodyContents := "<html>Bad Gateway</html>" |})].

Definition send (c : Client) (method url token : string) (body : option string)
    (expectedStatus : Z) : RequestResponse :=
  match find (fun entry => String.eqb (fst entry) url) network with
  | Some entry => snd entry
  | None => {| Error := Some errStatus; BodyContents := EmptyString |}
  end.

Definition world : Collaborators := {|
  Digest := string;
  json_Unmarshal_FeeQuoteResponse := unmarshalEnvelope;
  json_Unmarshal_FeePayload := unmarshalSchedule;
  sha256_Sum256 := fun message => message;
  bitcoin_VerifyMessageDER := verify;
  httpRequest := send
|}.

Definition clientOf (names : list string) : Client :=
  {| Miners := map miner names |}.

End Symbolic.

(** ** Vocabulary of the further properties *)

(** Two instances of the collaborators decode alike; they may differ in the
    hash, the verifier and the transport. *)
Definition sameDecoders (E E' : Collaborators) : Prop :=
  json_Unmarshal_FeeQuoteResponse E = json_Unmarshal_FeeQuoteResponse E'
  /\ json_Unmarshal_FeePayload E = json_Unmarshal_FeePayload E'.

(** The fee [GetFee] hands back for a rate that is not negative: the floor
    of the quotient, and 1 where that is zero. *)
Definition feeAtLeastOne (r : feeAmount) (txBytes : Z) : Z :=
  Z.max 1 (Satoshis r * txBytes / Bytes r).

(** More peers for the symbolic instance: one that does not sign, one whose
    schedule has no fee entries, one whose payload is the JSON null, one
    whose payload is not JSON, and one that answers with an envelope that
    claims to be validated already. *)
Module Peers.

Import Symbolic.

Definition scheduleNoFees : FeePayload := scheduleOf [].

Definition envelopeUnsigned : string * string * string :=
  (jpayload schedule500, EmptyString, EmptyString).
Definition envelopeNoFees : string * string * string :=
  (jpayload scheduleNoFees, sign key (jpayload scheduleNoFees), key).
Definition envelopeNull : string * string * string :=
  ("null", sign key "null", key).
Definition envelopeBroken : string * string * string :=
  ("{\", sign key "{\", key).

Definition knownEnvelopes : list (string * string * string) :=
  (Symbolic.knownEnvelopes
   ++ [envelopeUnsigned; envelopeNoFees; envelopeNull; envelopeBroken])%list.

Definition unmarshalEnvelope (body : string) (response : FeeQuoteResponse)
    : FeeQuoteResponse * option error :=
  match find (fun env => String.eqb (bodyOf env) body) knownEnvelopes with
  | Some (payload, signature, publicKey) =>
    ({| ResponseMiner := ResponseMiner response;
        Quote := Quote response;
        Payload := payload;
        Validated := Validated response;
        Signature := signature;
        PublicKey := publicKey;
        Encoding := "UTF-8";
        MimeType := "application/json" |}, None)
  | None =>
    (response, Some (errors_New "invalid character '<' looking for beginning of value"))
  end.

Definition unmarshalSchedule (text : string) (quote : option FeePayload)
    : option FeePayload * option error :=
  if String.eqb text "null" then (None, None)
  else
    match find (fun f => String.eqb (jpayload f) text)
               (Symbolic.knownSchedules ++ [scheduleNoFees])%list with
    | Some f => (Some f, None)
    | None => (quote, Some (errors_New "unexpected end of JSON input"))
    end.

Definition network : list (string * RequestResponse) :=
  (Symbolic.network
   ++ [("https://unsigned.example/mapi/feeQuote", ok envelopeUnsigned);
       ("https://nofees.example/mapi/feeQuote", ok envelopeNoFees);
       ("https://null.example/mapi/feeQuote", ok envelopeNull);
       ("https://broken.example/mapi/feeQuote", ok envelopeBroken)])%list.

Definition send (c : Client) (method url token : string) (body : option string)
    (expectedStatus : Z) : RequestResponse :=
  match find (fun entry => String.eqb (fst entry) url) network with
  | Some entry => snd entry
  | None => {| Error := Some errStatus; BodyContents := EmptyString |}
  end.

Definition world : Collaborators := {|
  Digest := string;
  json_Unmarshal_FeeQuoteResponse := unmarshalEnvelope;
  json_Unmarshal_FeePayload := unmarshalSchedule;
  sha256_Sum256 := fun message => message;
  bitcoin_VerifyMessageDER := verify;
  httpRequest := send
|}.

(** The same peers behind a verifier that accepts everything. *)
Definition gullible : Collaborators := {|
  Digest := string;
  json_Unmarshal_FeeQuoteResponse := unmarshalEnvelope;
  json_Unmarshal_FeePayload := unmarshalSchedule;
  sha256_Sum256 := fun message => message;
  bitcoin_VerifyMessageDER := fun _ _ _ => (true, None);
  httpRequest := send
|}.

End Peers.

(** ** The second aggregation loop

    [best_quote.go] holds another [BestQuote], over uint64 rates.  The
    declarations of its result type and of the helpers it calls
    ([parseQuote], [CalculateFee]) are not among the sources: the result
    type, the accessor of its transport error and the two helpers are
    parameters here, either helper free to panic.  A uint64 is a [Z]; the
    loop only compares rates. *)
Section BestQuoteUint64.

Variable internalResult : Type.
Variable ResponseError : internalResult -> option error.
Variable parseQuote : internalResult -> outcome (FeeQuoteResponse * option error).
Variable CalculateFee :
  option FeePayload -> string -> string -> Z -> outcome (Z * option error).

(** The loop over the closed results channel: a rate is taken when none was
    set so far (the best rate is still 0) or when it is better. *)
Fixpoint BestQuote_uint64_loop (feeCategory feeType : string)
    (results : list internalResult) (bestRate : Z) (bestQuote : FeeQuoteResponse)
    : outcome (option FeeQuoteResponse * option error) :=
  match results with
  | [] => Returns (Some bestQuote, None)
  | result :: rest =>
    match ResponseError result with
    | Some e => Returns (None, Some e)
    | None =>
      parsed <- parseQuote result ;;
      match snd parsed with
      | Some e => Returns (None, Some e)
      | None =>
        r <- CalculateFee (Quote (fst parsed)) feeCategory feeType 1000 ;;
        match snd r with
        | Some e => Returns (None, Some e)
        | None =>
          if (bestRate =? 0) || (fst r <? bestRate) then
            BestQuote_uint64_loop feeCategory feeType rest (fst r) (fst parsed)
          else
            BestQuote_uint64_loop feeCategory feeType rest bestRate bestQuote
        end
      end
    end
  end.

Definition BestQuote_uint64_drain (feeCategory feeType : string)
    (results : list internalResult)
    : outcome (option FeeQuoteResponse * option error) :=
  BestQuote_uint64_loop feeCategory feeType results 0 zeroFeeQuoteResponse.

(** A result goes through this loop without an error. *)
Definition rated (feeCategory ft : string) (result : internalResult)
    (x : FeeQuoteResponse * Z) : Prop :=
  ResponseError result = None
  /\ parseQuote result = Returns (fst x, None)
  /\ CalculateFee (Quote (fst x)) feeCategory ft 1000 = Returns (snd x, None).

End BestQuoteUint64.

(** The drain ends at [result] with [out]: the result carries a transport
    error, or its response fails to parse, or its schedule fails to score,
    and [out] is the nil quote with that error, or the panic of the fee
    calculator. *)
Definition stopsAt (E : Collaborators) (feeCategory ft : string) (result : feeResult)
    (out : outcome (option FeeQuoteResponse * option error)) : Prop :=
  (exists e, Error (Response result) = Some e /\ out = Returns (None, Some e))
  \/ (Error (Response result) = None
      /\ exists quote e,
           parseResponseIntoQuote E result = (quote, Some e)
           /\ out = Returns (None, Some e))
  \/ (Error (Response result) = None
      /\ exists quote fee e,
           parseResponseIntoQuote E result = (quote, None)
           /\ GetFee (Quote quote) feeCategory ft referenceBytes = Returns (fee, Some e)
           /\ out = Returns (None, Some e))
  \/ (Error (Response result) = None
      /\ exists quote p,
           parseResponseIntoQuote E result = (quote, None)
           /\ GetFee (Quote quote) feeCategory ft referenceBytes = Panics p
           /\ out = Panics p).

(** Closed facts about the symbolic instance are settled by evaluation. *)
Ltac evaluate := vm_compute; reflexivity.

Ltac scores_by_evaluation :=
  split; [evaluate | split; evaluate].

(** ** int64 arithmetic *)

Lemma wrap64_small (z : Z) : is_int64 z -> wrap64 z = z.
Proof.
  unfold is_int64, wrap64, MinInt64, MaxInt64. intros H.
  rewrite Z.mod_small; lia.
Qed.

Lemma wrap64_range (z : Z) : is_int64 (wrap64 z).
Proof.
  unfold is_int64, wrap64, MinInt64, MaxInt64.
  pose proof (Z.mod_pos_bound (z + 2 ^ 63) (2 ^ 64) ltac:(lia)). lia.
Qed.

Lemma quot_range (a b : Z) : is_int64 a -> 0 < b -> is_int64 (Z.quot a b).
Proof.
  unfold is_int64, MinInt64, MaxInt64. intros Ha Hb.
  destruct (Z_le_gt_dec 0 a) as [Hpos | Hneg].
  - rewrite Z.quot_div_nonneg by lia.
    pose proof (Z.div_pos a b Hpos Hb).
    pose proof (Z.div_le_upper_bound a b a Hb ltac:(nia)). lia.
  - replace a with (- (- a)) by lia. rewrite Z.quot_opp_l by lia.
    rewrite Z.quot_div_nonneg by lia.
    pose proof (Z.div_pos (- a) b ltac:(lia) Hb).
    pose proof (Z.div_le_upper_bound (- a) b (- a) Hb ltac:(nia)). lia.
Qed.

(** With a positive divisor the int64 quotient is the truncated quotient. *)
Lemma int64_div_pos (a b : Z) :
  is_int64 a -> 0 < b -> int64_div a b = Returns (Z.quot a b).
Proof.
  intros Ha Hb. unfold int64_div.
  destruct (Z.eqb_spec b 0); [lia |].
  now rewrite wrap64_small by now apply quot_range.
Qed.

(** ** The scan of [GetFee] *)

Lemma GetFee_loop_skip (pre : list feeType) (rest : list (option feeType))
    (feeCategory ft : string) (txBytes : Z) :
  Forall (fun e => FeeType e <> ft) pre ->
  GetFee_loop (map Some pre ++ rest) feeCategory ft txBytes
  = GetFee_loop rest feeCategory ft txBytes.
Proof.
  induction 1 as [| e pre He _ IH]; simpl; [reflexivity |].
  destruct (String.eqb_spec (FeeType e) ft); [contradiction | exact IH].
Qed.

Lemma GetFee_firstMatch (f : FeePayload) (fee : feeType) (feeCategory ft : string)
    (txBytes : Z) :
  validFeeType ft = true ->
  validFeeCategory feeCategory = true ->
  firstMatch (Fees f) fee ft ->
  GetFee (Some f) feeCategory ft txBytes
  = (c <- calcFee fee feeCategory txBytes ;;
     if negb (c =? 0) then Returns (c, None) else Returns (1, Some errZeroFee)).
Proof.
  unfold validFeeType, validFeeCategory, GetFee.
  intros Hft Hcat (pre & post & Hfees & Hpre & Htag).
  apply orb_true_iff in Hft. apply orb_true_iff in Hcat.
  replace (negb (EqualFold ft FeeTypeData) && negb (EqualFold ft FeeTypeStandard))
    with false by (destruct Hft as [-> | ->]; simpl; now rewrite ?andb_false_r).
  replace (negb (EqualFold feeCategory FeeCategoryMining)
           && negb (EqualFold feeCategory FeeCategoryRelay))
    with false by (destruct Hcat as [-> | ->]; simpl; now rewrite ?andb_false_r).
  rewrite Hfees, GetFee_loop_skip by assumption. simpl.
  rewrite <- Htag, String.eqb_refl. reflexivity.
Qed.

Lemma calcFee_rate (fee : feeType) (feeCategory : string) (txBytes : Z) (r : feeAmount) :
  requestedRate fee feeCategory = Some r ->
  calcFee fee feeCategory txBytes
  = int64_div (int64_mul (Satoshis r) txBytes) (Bytes r).
Proof.
  unfold requestedRate, calcFee.
  destruct (EqualFold feeCategory FeeCategoryMining); intros ->; reflexivity.
Qed.

(** [GetFee] never hands back a zero fee next to a nil error. *)
Lemma GetFee_loop_nonzero (fees : list (option feeType)) (feeCategory ft : string)
    (txBytes fee : Z) :
  GetFee_loop fees feeCategory ft txBytes = Returns (fee, None) -> fee <> 0.
Proof.
  induction fees as [| [e |] fees IH]; simpl; try discriminate.
  destruct (String.eqb (FeeType e) ft); [| exact IH].
  destruct (calcFee e feeCategory txBytes) as [c | p]; simpl; [| discriminate].
  destruct (Z.eqb_spec c 0); simpl; [discriminate |].
  intros H. injection H as <-. assumption.
Qed.

Lemma GetFee_nonzero (f : option FeePayload) (feeCategory ft : string) (txBytes fee : Z) :
  GetFee f feeCategory ft txBytes = Returns (fee, None) -> fee <> 0.
Proof.
  unfold GetFee.
  destruct (negb (EqualFold ft FeeTypeData) && negb (EqualFold ft FeeTypeStandard));
    [discriminate |].
  destruct (negb (EqualFold feeCategory FeeCategoryMining)
            && negb (EqualFold feeCategory FeeCategoryRelay)); [discriminate |].
  destruct f as [f |]; [apply GetFee_loop_nonzero | discriminate].
Qed.

(** ** The drain of [BestQuote] *)

Section Drain.

Variable E : Collaborators.
Variables feeCategory ft : string.

(** One scored result moves the loop to the state [keepBest] describes. *)
Lemma loop_scored_step (result : feeResult) (x : FeeQuoteResponse * Z)
    (rest : list feeResult) (bestRate : Z) (bestQuote : FeeQuoteResponse) :
  scores E feeCategory ft result x ->
  BestQuote_loop E feeCategory ft (result :: rest) bestRate bestQuote
  = BestQuote_loop E feeCategory ft rest (snd (keepBest (bestQuote, bestRate) x))
              (fst (keepBest (bestQuote, bestRate) x)).
Proof.
  intros (Herr & Hparse & Hfee). unfold keepBest. simpl.
  rewrite Herr, Hparse, Hfee. simpl.
  destruct (bestRate =? 0); [reflexivity |].
  destruct (snd x <? bestRate); reflexivity.
Qed.

(** A prefix of scored results is folded into the two loop variables. *)
Lemma loop_scored_prefix (pre : list feeResult) (scored : list (FeeQuoteResponse * Z))
    (rest : list feeResult) :
  Forall2 (scores E feeCategory ft) pre scored ->
  forall (bestRate : Z) (bestQuote : FeeQuoteResponse),
    BestQuote_loop E feeCategory ft (pre ++ rest) bestRate bestQuote
    = BestQuote_loop E feeCategory ft rest (snd (fold_left keepBest scored (bestQuote, bestRate)))
                (fst (fold_left keepBest scored (bestQuote, bestRate))).
Proof.
  induction 1 as [| result x pre scored Hx _ IH]; intros bestRate bestQuote.
  - reflexivity.
  - rewrite <- app_comm_cons, (loop_scored_step _ x) by assumption.
    rewrite IH. simpl.
    now destruct (keepBest (bestQuote, bestRate) x).
Qed.

(** The loop stops at the first transport error it meets. *)
Lemma loop_transport_error (result : feeResult) (rest : list feeResult) (e : error)
    (bestRate : Z) (bestQuote : FeeQuoteResponse) :
  Error (Response result) = Some e ->
  BestQuote_loop E feeCategory ft (result :: rest) bestRate bestQuote = Returns (None, Some e).
Proof.
  intros H. simpl. now rewrite H.
Qed.

(** The loop stops at any error the fee calculator returns. *)
Lemma loop_fee_error (result : feeResult) (rest : list feeResult)
    (quote : FeeQuoteResponse) (fee : Z) (e : error)
    (bestRate : Z) (bestQuote : FeeQuoteResponse) :
  Error (Response result) = None ->
  parseResponseIntoQuote E result = (quote, None) ->
  GetFee (Quote quote) feeCategory ft referenceBytes = Returns (fee, Some e) ->
  BestQuote_loop E feeCategory ft (result :: rest) bestRate bestQuote = Returns (None, Some e).
Proof.
  intros Herr Hparse Hfee. simpl.
  rewrite Herr, Hparse, Hfee. simpl.
  now destruct (bestRate =? 0).
Qed.

(** A panic of the fee calculator is a panic of the loop. *)
Lemma loop_fee_panic (result : feeResult) (rest : list feeResult)
    (quote : FeeQuoteResponse) (p : runtime_panic)
    (bestRate : Z) (bestQuote : FeeQuoteResponse) :
  Error (Response result) = None ->
  parseResponseIntoQuote E result = (quote, None) ->
  GetFee (Quote quote) feeCategory ft referenceBytes = Panics p ->
  BestQuote_loop E feeCategory ft (result :: rest) bestRate bestQuote = Panics p.
Proof.
  intros Herr Hparse Hfee. simpl.
  rewrite Herr, Hparse, Hfee. simpl.
  now destruct (bestRate =? 0).
Qed.

(** With a transport error anywhere in the channel no quote comes out. *)
Lemma loop_no_quote (results : list feeResult) :
  Exists (fun result => Error (Response result) <> None) results ->
  forall (bestRate : Z) (bestQuote : FeeQuoteResponse),
    (exists p, BestQuote_loop E feeCategory ft results bestRate bestQuote = Panics p)
    \/ (exists e, BestQuote_loop E feeCategory ft results bestRate bestQuote = Returns (None, Some e)).
Proof.
  induction results as [| result rest IH]; intros Hex bestRate bestQuote.
  - inversion Hex.
  - simpl. destruct (Error (Response result)) as [e |] eqn:Herr.
    + right. now exists e.
    + assert (Hrest : Exists (fun r => Error (Response r) <> None) rest).
      { inversion Hex; subst; [congruence | assumption]. }
      destruct (parseResponseIntoQuote E result) as [quote [e |]].
      * right. now exists e.
      * destruct (GetFee (Quote quote) feeCategory ft referenceBytes)
          as [[fee [e |]] | p]; simpl.
        -- right. destruct (bestRate =? 0); now exists e.
        -- destruct (bestRate =? 0); [now apply IH |].
           destruct (fee <? bestRate); now apply IH.
        -- left. destruct (bestRate =? 0); now exists p.
Qed.

(** Scored fees are never zero, so after the first result the zero test of
    the loop no longer fires and [keepBest] is the running minimum. *)
Lemma scores_nonzero (result : feeResult) (x : FeeQuoteResponse * Z) :
  scores E feeCategory ft result x -> snd x <> 0.
Proof.
  intros (_ & _ & Hfee). now apply GetFee_nonzero in Hfee.
Qed.

End Drain.

Lemma keepBest_firstMin (l : list (FeeQuoteResponse * Z)) (st : FeeQuoteResponse * Z) :
  snd st <> 0 ->
  Forall (fun x => snd x <> 0) l ->
  fold_left keepBest l st = firstMin st l.
Proof.
  revert st. induction l as [| x l IH]; intros st Hst Hl; [reflexivity |].
  inversion Hl as [| ? ? Hx Hl']; subst. simpl.
  unfold keepBest at 2. destruct (Z.eqb_spec (snd st) 0); [contradiction |].
  apply IH; [| assumption].
  destruct (snd x <? snd st); assumption.
Qed.

(** [firstMin] is the first element of least fee. *)
Lemma firstMin_first (l : list (FeeQuoteResponse * Z)) (best : FeeQuoteResponse * Z) :
  exists pre post,
    (best :: l = pre ++ firstMin best l :: post)%list
    /\ Forall (fun x => snd (firstMin best l) < snd x) pre
    /\ Forall (fun x => snd (firstMin best l) <= snd x) post.
Proof.
  revert best. induction l as [| x l IH]; intros best.
  - exists [], []. simpl. repeat split; constructor.
  - simpl. destruct (Z.ltb_spec (snd x) (snd best)) as [Hlt | Hge].
    + destruct (IH x) as (pre & post & Heq & Hpre & Hpost).
      exists (best :: pre), post. rewrite Heq. repeat split; try assumption.
      constructor; [| assumption].
      assert (Hmin : snd (firstMin x l) <= snd x).
      { destruct pre as [| y pre].
        - injection Heq as Hx _. rewrite <- Hx. lia.
        - injection Heq as Hy _. subst y. inversion Hpre; subst. lia. }
      lia.
    + destruct (IH best) as (pre & post & Heq & Hpre & Hpost).
      destruct pre as [| y pre].
      * injection Heq as Hb Hl. exists [], (x :: post). repeat split.
        -- simpl. f_equal; [exact Hb | now f_equal].
        -- constructor.
        -- constructor; [rewrite <- Hb; lia | assumption].
      * injection Heq as Hy Hl. subst y.
        exists (best :: x :: pre), post. repeat split.
        -- simpl. do 2 f_equal. exact Hl.
        -- inversion Hpre; subst. constructor; [assumption |].
           constructor; [lia | assumption].
        -- assumption.
Qed.

(** With a transport error somewhere in the channel, the loop ends at the
    first result that does not score, with what that result gives. *)
Lemma loop_first_failure (E : Collaborators) (feeCategory ft : string)
    (results : list feeResult) :
  Exists (fun result => Error (Response result) <> None) results ->
  forall (bestRate : Z) (bestQuote : FeeQuoteResponse),
    exists pre scored result post,
      results = (pre ++ result :: post)%list
      /\ Forall2 (scores E feeCategory ft) pre scored
      /\ stopsAt E feeCategory ft result
           (BestQuote_loop E feeCategory ft results bestRate bestQuote).
Proof.
  induction results as [| head rest IH]; intros Hex bestRate bestQuote;
    [inversion Hex |].
  destruct (Error (Response head)) as [e |] eqn:Hfetch.
  { exists [], [], head, rest. split; [reflexivity |]. split; [constructor |].
    left. exists e. split; [exact Hfetch |].
    now apply loop_transport_error. }
  destruct (parseResponseIntoQuote E head) as [quote [e |]] eqn:Hparse.
  { exists [], [], head, rest. split; [reflexivity |]. split; [constructor |].
    right. left. split; [exact Hfetch |]. exists quote, e. split; [exact Hparse |].
    simpl. now rewrite Hfetch, Hparse. }
  destruct (GetFee (Quote quote) feeCategory ft referenceBytes)
    as [[fee [e |]] | p] eqn:Hfee.
  - exists [], [], head, rest. split; [reflexivity |]. split; [constructor |].
    right. right. left. split; [exact Hfetch |]. exists quote, fee, e.
    split; [exact Hparse |]. split; [exact Hfee |].
    now apply (loop_fee_error E feeCategory ft head rest quote fee).
  - assert (Hhead : scores E feeCategory ft head (quote, fee)).
    { split; [exact Hfetch |]. split; assumption. }
    assert (Hrest : Exists (fun r => Error (Response r) <> None) rest).
    { inversion Hex; subst; [congruence | assumption]. }
    rewrite (loop_scored_step E feeCategory ft head (quote, fee) rest) by assumption.
    destruct (IH Hrest (snd (keepBest (bestQuote, bestRate) (quote, fee)))
                 (fst (keepBest (bestQuote, bestRate) (quote, fee))))
      as (pre & scored & result & post & Heq & Hpre & Hstop).
    exists (head :: pre), ((quote, fee) :: scored), result, post.
    split; [now rewrite Heq |]. split; [now constructor | exact Hstop].
  - exists [], [], head, rest. split; [reflexivity |]. split; [constructor |].
    right. right. right. split; [exact Hfetch |]. exists quote, p.
    split; [exact Hparse |]. split; [exact Hfee |].
    now apply (loop_fee_panic E feeCategory ft head rest quote).
Qed.

(** What the drain returns over scored results: the first quote of least
    fee. *)
Lemma drain_scored (E : Collaborators) (feeCategory ft : string)
    (results : list feeResult) (x : FeeQuoteResponse * Z)
    (l : list (FeeQuoteResponse * Z)) :
  Forall2 (scores E feeCategory ft) results (x :: l) ->
  BestQuote_drain E feeCategory ft results
  = Returns (Some (fst (firstMin x l)), None).
Proof.
  intros H. unfold BestQuote_drain.
  rewrite <- (app_nil_r results).
  rewrite (loop_scored_prefix E feeCategory ft results (x :: l) [] H).
  assert (Hnz : Forall (fun y => snd y <> 0) (x :: l)).
  { clear - H. remember (x :: l) as scored eqn:Heq. clear Heq.
    induction H as [| r y rs ys Hy _ IH]; constructor;
      [now apply scores_nonzero in Hy | exact IH]. }
  inversion Hnz as [| ? ? Hx Hl]; subst.
  simpl fold_left. unfold keepBest at 2 4. simpl.
  rewrite keepBest_firstMin by assumption. reflexivity.
Qed.

Lemma firstMin_In (l : list (FeeQuoteResponse * Z)) (best : FeeQuoteResponse * Z) :
  In (firstMin best l) (best :: l).
Proof.
  destruct (firstMin_first l best) as (pre & post & Heq & _).
  rewrite Heq. apply in_elt.
Qed.

Lemma firstMin_le (l : list (FeeQuoteResponse * Z)) (best y : FeeQuoteResponse * Z) :
  In y (best :: l) -> snd (firstMin best l) <= snd y.
Proof.
  destruct (firstMin_first l best) as (pre & post & Heq & Hpre & Hpost).
  rewrite Heq. intros Hin. apply in_app_or in Hin.
  rewrite Forall_forall in Hpre, Hpost.
  destruct Hin as [Hin | [<- | Hin]]; [apply Hpre in Hin | | apply Hpost in Hin]; lia.
Qed.

(** Results that all score can be listed with their scores. *)
Lemma scored_list (E : Collaborators) (feeCategory ft : string)
    (P : FeeQuoteResponse * Z -> Prop) (results : list feeResult) :
  Forall (fun result => exists x, scores E feeCategory ft result x /\ P x) results ->
  exists scored, Forall2 (scores E feeCategory ft) results scored /\ Forall P scored.
Proof.
  induction 1 as [| result results (x & Hx & HP) _ (scored & IH & IHP)].
  - exists []. split; constructor.
  - exists (x :: scored). split; constructor; assumption.
Qed.

(** What is left after stripping holds none of the stripped bytes. *)
Lemma Replace_removes (s : string) (old c : ascii) :
  In c (list_ascii_of_string (Replace s old EmptyString)) -> c <> old.
Proof.
  induction s as [| a s IH]; simpl; [contradiction |].
  destruct (Ascii.eqb_spec a old) as [-> | Hne]; simpl; [exact IH |].
  intros [<- | Hin]; [exact Hne | now apply IH].
Qed.

(** Stripping leaves a payload without backslashes as it is. *)
Lemma Replace_absent (s : string) (old : ascii) (new : string) :
  (forall c, In c (list_ascii_of_string s) -> c <> old) ->
  Replace s old new = s.
Proof.
  induction s as [| c s IH]; simpl; intros H; [reflexivity |].
  destruct (Ascii.eqb_spec c old) as [-> | _].
  - exfalso. now apply (H old); [left |].
  - f_equal. apply IH. intros c' Hc'. apply H. now right.
Qed.

(** The payload step keeps the signature and the public key and stores the
    stripped payload. *)
Lemma unmarshalPayload_fields (E : Collaborators) (r0 r1 : FeeQuoteResponse)
    (err : option error) :
  unmarshalPayload E r0 = (r1, err) ->
  Signature r1 = Signature r0
  /\ PublicKey r1 = PublicKey r0
  /\ Payload r1 = Replace (Payload r0) "\" EmptyString
  /\ (nonempty (Payload r0) = true ->
      (Quote r1, err)
      = json_Unmarshal_FeePayload E (Replace (Payload r0) "\" EmptyString) (Quote r0)).
Proof.
  unfold unmarshalPayload.
  destruct (Payload r0) as [| c p] eqn:Hp; simpl.
  - intros H. injection H as <- <-. rewrite Hp. repeat split. discriminate.
  - destruct (json_Unmarshal_FeePayload E _ (Quote r0)) as [quote e] eqn:Hdec.
    intros H. injection H as <- <-. simpl. repeat split.
Qed.

(** With both the signature and the public key present, the verdict of the
    verifier on the digest of [response.Payload], as the payload step left
    it, becomes [Validated], and its error the error of the parse. *)
Lemma parseResponseIntoQuote_verdict (E : Collaborators) (result : feeResult)
    (r0 r1 : FeeQuoteResponse) :
  json_Unmarshal_FeeQuoteResponse E (BodyContents (Response result))
    (set_ResponseMiner (ResultMiner result) zeroFeeQuoteResponse) = (r0, None) ->
  unmarshalPayload E r0 = (r1, None) ->
  nonempty (Signature r0) = true ->
  nonempty (PublicKey r0) = true ->
  parseResponseIntoQuote E result
  = (set_Validated
       (fst (bitcoin_VerifyMessageDER E (sha256_Sum256 E (Payload r1))
               (PublicKey r0) (Signature r0))) r1,
     snd (bitcoin_VerifyMessageDER E (sha256_Sum256 E (Payload r1))
            (PublicKey r0) (Signature r0))).
Proof.
  intros Houter Hpayload Hsig Hkey.
  destruct (unmarshalPayload_fields E r0 r1 None Hpayload) as (Hs & Hk & _).
  unfold parseResponseIntoQuote. rewrite Houter, Hpayload.
  unfold validateSignature. rewrite Hs, Hk, Hsig, Hkey. simpl.
  now destruct (bitcoin_VerifyMessageDER E _ (PublicKey r0) (Signature r0)).
Qed.

(** * Properties *)

Import Symbolic.

(** ** Signature verification *)

(** C1, as stated, fails on the peer [slash]: its payload string reaches the
    parser with backslashes in it and is signed as transmitted, so the
    verifier accepts the digest of that string; the code hands the verifier
    the digest of the stripped string, which is another one, and the
    response comes back with [Validated = false]. *)
Lemma parse_slash_digest_not_of_wire_payload :
  let result := getQuote world (clientOf ["slash"]) (miner "slash") in
  let received :=
    fst (json_Unmarshal_FeeQuoteResponse world (BodyContents (Response result))
           (set_ResponseMiner (ResultMiner result) zeroFeeQuoteResponse)) in
  let parsed := fst (parseResponseIntoQuote world result) in
  Payload received = wireSlash
  /\ nonempty (Signature received) = true
  /\ nonempty (PublicKey received) = true
  /\ bitcoin_VerifyMessageDER world (sha256_Sum256 world (Payload received))
       (PublicKey received) (Signature received) = (true, None)
  /\ snd (parseResponseIntoQuote world result) = None
  /\ Validated parsed = false
  /\ Payload parsed <> Payload received
  /\ bitcoin_VerifyMessageDER world (sha256_Sum256 world (Payload parsed))
       (PublicKey received) (Signature received) = (false, None).
Proof.
  vm_compute. repeat split. discriminate.
Qed.

(** C1, amended: for every envelope whose signature and public key are both
    non-empty, the verification step computes the SHA-256 digest of the
    payload string after the backslashes have been removed from it, the very
    string the inner JSON decoder is given and [response.Payload] holds from
    then on, and passes that digest to the DER verifier; the string hashed
    is the payload as received if and only if the payload holds no
    backslash. *)
Theorem parseResponseIntoQuote_digest_of_stripped_payload
    (E : Collaborators) (result : feeResult) (r0 r1 : FeeQuoteResponse) :
  json_Unmarshal_FeeQuoteResponse E (BodyContents (Response result))
    (set_ResponseMiner (ResultMiner result) zeroFeeQuoteResponse) = (r0, None) ->
  unmarshalPayload E r0 = (r1, None) ->
  nonempty (Signature r0) = true ->
  nonempty (PublicKey r0) = true ->
  let stripped := Replace (Payload r0) "\" EmptyString in
  let verdict :=
    bitcoin_VerifyMessageDER E (sha256_Sum256 E stripped) (PublicKey r0) (Signature r0) in
  parseResponseIntoQuote E result = (set_Validated (fst verdict) r1, snd verdict)
  /\ Payload r1 = stripped
  /\ (nonempty (Payload r0) = true ->
      Quote r1 = fst (json_Unmarshal_FeePayload E stripped (Quote r0)))
  /\ (stripped = Payload r0 <->
      forall c, In c (list_ascii_of_string (Payload r0)) -> c <> "\"%char).
Proof.
  intros Houter Hpayload Hsig Hkey stripped verdict.
  destruct (unmarshalPayload_fields E r0 r1 None Hpayload)
    as (Hs & Hk & Hp & Hq).
  repeat split.
  - rewrite (parseResponseIntoQuote_verdict E result r0 r1) by assumption.
    now rewrite Hp.
  - exact Hp.
  - intros Hne. specialize (Hq Hne). fold stripped in Hq. now rewrite <- Hq.
  - intros Heq c. rewrite <- Heq. apply Replace_removes.
  - intros Hno. now apply Replace_absent.
Qed.

Lemma parseResponseIntoQuote_digest_of_stripped_payload_witness :
  let result := getQuote world (clientOf ["slash"]) (miner "slash") in
  let r0 := fst (unmarshalEnvelope (BodyContents (Response result))
                   (set_ResponseMiner (ResultMiner result) zeroFeeQuoteResponse)) in
  let r1 := fst (unmarshalPayload world r0) in
  json_Unmarshal_FeeQuoteResponse world (BodyContents (Response result))
    (set_ResponseMiner (ResultMiner result) zeroFeeQuoteResponse) = (r0, None)
  /\ unmarshalPayload world r0 = (r1, None)
  /\ nonempty (Signature r0) = true
  /\ nonempty (PublicKey r0) = true
  /\ parseResponseIntoQuote world result
     = (set_Validated
          (fst (bitcoin_VerifyMessageDER world
                  (sha256_Sum256 world (Replace (Payload r0) "\" EmptyString))
                  (PublicKey r0) (Signature r0))) r1,
        snd (bitcoin_VerifyMessageDER world
               (sha256_Sum256 world (Replace (Payload r0) "\" EmptyString))
               (PublicKey r0) (Signature r0))).
Proof.
  intros result r0 r1.
  assert (H0 : json_Unmarshal_FeeQuoteResponse world (BodyContents (Response result))
                 (set_ResponseMiner (ResultMiner result) zeroFeeQuoteResponse) = (r0, None))
    by evaluate.
  assert (H1 : unmarshalPayload world r0 = (r1, None)) by evaluate.
  assert (H2 : nonempty (Signature r0) = true) by evaluate.
  assert (H3 : nonempty (PublicKey r0) = true) by evaluate.
  refine (conj H0 (conj H1 (conj H2 (conj H3 _)))).
  exact (proj1 (parseResponseIntoQuote_digest_of_stripped_payload
                  world result r0 r1 H0 H1 H2 H3)).
Defined.

(** C2, as stated, fails on the peer [forged]: the verifier answers false
    without an error, and the quote is returned with [Validated = false] and
    a nil error, by [parseResponseIntoQuote] and by [FeeQuote] alike. *)
Lemma FeeQuote_forged_returns_unvalidated_quote :
  let c := clientOf ["forged"] in
  let result := getQuote world c (miner "forged") in
  let parsed := fst (parseResponseIntoQuote world result) in
  nonempty (Signature parsed) = true
  /\ nonempty (PublicKey parsed) = true
  /\ bitcoin_VerifyMessageDER world (sha256_Sum256 world (Payload parsed))
       (PublicKey parsed) (Signature parsed) = (false, None)
  /\ snd (parseResponseIntoQuote world result) = None
  /\ Validated parsed = false
  /\ Quote parsed = Some schedule400
  /\ FeeQuote world c (Some (miner "forged")) = (Some parsed, None).
Proof.
  vm_compute. repeat split.
Qed.

(** C2, amended: for every response carrying a non-empty signature and
    public key, if the external verifier returns false without an error, the
    parse/verify step returns the response with [Validated = false] and a nil
    error, and [FeeQuote] returns it as the quote of that peer when its
    schedule has fee entries; an error is surfaced only when the verifier
    itself returns one. *)
Theorem parseResponseIntoQuote_false_verdict_is_not_an_error
    (E : Collaborators) (c : Client) (m : Miner) (r0 r1 : FeeQuoteResponse)
    (quote : FeePayload) (v : bool) (err : option error) :
  let result := getQuote E c m in
  Error (Response result) = None ->
  json_Unmarshal_FeeQuoteResponse E (BodyContents (Response result))
    (set_ResponseMiner (ResultMiner result) zeroFeeQuoteResponse) = (r0, None) ->
  unmarshalPayload E r0 = (r1, None) ->
  nonempty (Signature r0) = true ->
  nonempty (PublicKey r0) = true ->
  Quote r1 = Some quote ->
  Fees quote <> [] ->
  bitcoin_VerifyMessageDER E (sha256_Sum256 E (Payload r1)) (PublicKey r0) (Signature r0)
  = (v, err) ->
  parseResponseIntoQuote E result = (set_Validated v r1, err)
  /\ (err = None -> FeeQuote E c (Some m) = (Some (set_Validated v r1), None))
  /\ (forall e, err = Some e -> FeeQuote E c (Some m) = (None, Some e)).
Proof.
  intros result Hfetch Houter Hpayload Hsig Hkey Hquote Hfees Hverdict.
  destruct (unmarshalPayload_fields E r0 r1 None Hpayload) as (Hs & Hk & Hp & _).
  assert (Hparse : parseResponseIntoQuote E result = (set_Validated v r1, err)).
  { rewrite (parseResponseIntoQuote_verdict E result r0 r1) by assumption.
    now rewrite Hverdict. }
  repeat split.
  - exact Hparse.
  - intros ->. unfold FeeQuote. fold result. rewrite Hfetch, Hparse. simpl.
    rewrite Hquote. destruct (Fees quote); [contradiction | reflexivity].
  - intros e ->. unfold FeeQuote. fold result. now rewrite Hfetch, Hparse.
Qed.

Lemma parseResponseIntoQuote_false_verdict_is_not_an_error_witness :
  let c := clientOf ["forged"] in
  let result := getQuote world c (miner "forged") in
  let r0 := fst (unmarshalEnvelope (BodyContents (Response result))
                   (set_ResponseMiner (ResultMiner result) zeroFeeQuoteResponse)) in
  let r1 := fst (unmarshalPayload world r0) in
  Error (Response result) = None
  /\ json_Unmarshal_FeeQuoteResponse world (BodyContents (Response result))
       (set_ResponseMiner (ResultMiner result) zeroFeeQuoteResponse) = (r0, None)
  /\ unmarshalPayload world r0 = (r1, None)
  /\ nonempty (Signature r0) = true
  /\ nonempty (PublicKey r0) = true
  /\ Quote r1 = Some schedule400
  /\ Fees schedule400 <> []
  /\ bitcoin_VerifyMessageDER world (sha256_Sum256 world (Payload r1))
       (PublicKey r0) (Signature r0) = (false, None)
  /\ parseResponseIntoQuote world result = (set_Validated false r1, None)
  /\ FeeQuote world c (Some (miner "forged")) = (Some (set_Validated false r1), None).
Proof.
  intros c result r0 r1.
  assert (H0 : Error (Response result) = None) by evaluate.
  assert (H1 : json_Unmarshal_FeeQuoteResponse world (BodyContents (Response result))
                 (set_ResponseMiner (ResultMiner result) zeroFeeQuoteResponse) = (r0, None))
    by evaluate.
  assert (H2 : unmarshalPayload world r0 = (r1, None)) by evaluate.
  assert (H3 : nonempty (Signature r0) = true) by evaluate.
  assert (H4 : nonempty (PublicKey r0) = true) by evaluate.
  assert (H5 : Quote r1 = Some schedule400) by evaluate.
  assert (H6 : Fees schedule400 <> []) by discriminate.
  assert (H7 : bitcoin_VerifyMessageDER world (sha256_Sum256 world (Payload r1))
                 (PublicKey r0) (Signature r0) = (false, None))
    by evaluate.
  destruct (parseResponseIntoQuote_false_verdict_is_not_an_error
              world c (miner "forged") r0 r1 schedule400 false None
              H0 H1 H2 H3 H4 H5 H6 H7) as (Hparse & Hquote & _).
  refine (conj H0 (conj H1 (conj H2 (conj H3 (conj H4 (conj H5 (conj H6 (conj H7 _)))))))).
  split; [exact Hparse | now apply Hquote].
Defined.

(** ** Aggregation *)

(** C3, as stated, fails on the peers [html] and [nobody] drained in that
    order: the fetch of [nobody] carries a transport error and the fetch of
    [html] succeeds with a body that is not an envelope; [BestQuote] returns
    the decoding error of [html], not the transport error. *)
Lemma BestQuote_html_nobody_returns_decoding_error :
  let c := clientOf ["html"; "nobody"] in
  Error (Response (getQuote world c (miner "html"))) = None
  /\ Error (Response (getQuote world c (miner "nobody"))) = Some errStatus
  /\ BestQuote world c "mining" "standard"
       (Returns (None,
                 Some (errors_New "invalid character '<' looking for beginning of value")))
  /\ errors_New "invalid character '<' looking for beginning of value" <> errStatus.
Proof.
  intros c.
  split; [evaluate |].
  split; [evaluate |].
  split; [| discriminate].
  exists (map (getQuote world c) [miner "html"; miner "nobody"]).
  split; [apply Permutation_refl | evaluate].
Qed.

(** C3, amended: for every peer set in which at least one peer's fetch
    outcome carries a transport error, BestQuote returns no quote, even if
    every other peer's fetch succeeded: in every drain order the call ends at
    the first result that does not go through (a transport error, a response
    that fails to parse, a schedule that fails to score), all results before
    it having scored, and returns a nil quote with the error of that result,
    or panics there with the fee calculator; the error is that transport
    error whenever every result drained before it parses and scores without
    error. *)
Theorem BestQuote_transport_error_fails_aggregation
    (E : Collaborators) (c : Client) (feeCategory ft : string) :
  (exists m, In m (Miners c) /\ Error (Response (getQuote E c m)) <> None) ->
  (forall out, BestQuote E c feeCategory ft out ->
     (exists p, out = Panics p) \/ (exists e, out = Returns (None, Some e)))
  /\ (forall results,
        Permutation results (map (getQuote E c) (Miners c)) ->
        exists pre scored result post,
          results = (pre ++ result :: post)%list
          /\ Forall2 (scores E feeCategory ft) pre scored
          /\ stopsAt E feeCategory ft result (BestQuote_drain E feeCategory ft results))
  /\ (forall pre scored result e post,
        Permutation (pre ++ result :: post) (map (getQuote E c) (Miners c)) ->
        Forall2 (scores E feeCategory ft) pre scored ->
        Error (Response result) = Some e ->
        BestQuote_drain E feeCategory ft (pre ++ result :: post) = Returns (None, Some e)
        /\ BestQuote E c feeCategory ft (Returns (None, Some e))).
Proof.
  intros (m & Hin & Herr).
  assert (Hex : forall results,
            Permutation results (map (getQuote E c) (Miners c)) ->
            Exists (fun result => Error (Response result) <> None) results).
  { intros results Hperm.
    apply Exists_exists. exists (getQuote E c m). split; [| exact Herr].
    apply (Permutation_in _ (Permutation_sym Hperm)). now apply in_map. }
  split; [| split].
  - intros out (results & Hperm & <-).
    destruct (loop_no_quote E feeCategory ft results (Hex results Hperm)
                0 zeroFeeQuoteResponse)
      as [(p & Hp) | (e & He)]; [left; now exists p | right; now exists e].
  - intros results Hperm.
    exact (loop_first_failure E feeCategory ft results (Hex results Hperm)
             0 zeroFeeQuoteResponse).
  - intros pre scored result e post Hperm Hpre He.
    assert (Hdrain : BestQuote_drain E feeCategory ft (pre ++ result :: post)
                     = Returns (None, Some e)).
    { unfold BestQuote_drain.
      rewrite (loop_scored_prefix E feeCategory ft pre scored _ Hpre).
      now apply loop_transport_error. }
    split; [exact Hdrain |].
    now exists (pre ++ result :: post)%list.
Qed.

Lemma BestQuote_transport_error_fails_aggregation_witness :
  let c := clientOf ["alpha"; "nobody"; "beta"] in
  let fetch := getQuote world c in
  (exists m, In m (Miners c) /\ Error (Response (fetch m)) <> None)
  /\ Permutation ([fetch (miner "alpha")] ++ fetch (miner "nobody") :: [fetch (miner "beta")])
       (map fetch (Miners c))
  /\ Forall2 (scores world "mining" "standard") [fetch (miner "alpha")]
       [(fst (parseResponseIntoQuote world (fetch (miner "alpha"))), 500)]
  /\ Error (Response (fetch (miner "nobody"))) = Some errStatus
  /\ BestQuote world c "mining" "standard" (Returns (None, Some errStatus))
  /\ exists pre scored result post,
       map fetch (Miners c) = (pre ++ result :: post)%list
       /\ Forall2 (scores world "mining" "standard") pre scored
       /\ stopsAt world "mining" "standard" result
            (BestQuote_drain world "mining" "standard" (map fetch (Miners c))).
Proof.
  intros c fetch.
  assert (H0 : exists m, In m (Miners c) /\ Error (Response (fetch m)) <> None).
  { exists (miner "nobody"). split; [right; left; reflexivity | vm_compute; discriminate]. }
  assert (H1 : Permutation
                 ([fetch (miner "alpha")] ++ fetch (miner "nobody") :: [fetch (miner "beta")])
                 (map fetch (Miners c))) by apply Permutation_refl.
  assert (H2 : Forall2 (scores world "mining" "standard") [fetch (miner "alpha")]
                 [(fst (parseResponseIntoQuote world (fetch (miner "alpha"))), 500)]).
  { constructor; [| constructor].
    scores_by_evaluation. }
  assert (H3 : Error (Response (fetch (miner "nobody"))) = Some errStatus)
    by evaluate.
  refine (conj H0 (conj H1 (conj H2 (conj H3 (conj _ _))))).
  - exact (proj2 (proj2 (proj2 (BestQuote_transport_error_fails_aggregation
                                  world c "mining" "standard" H0))
                    _ _ _ _ _ H1 H2 H3)).
  - exact (proj1 (proj2 (BestQuote_transport_error_fails_aggregation
                           world c "mining" "standard" H0))
             (map fetch (Miners c)) (Permutation_refl _)).
Defined.

(** On the client without miners the loop over the channel has nothing to
    drain and [BestQuote] returns a pointer to the zero-valued [bestQuote]
    with a nil error. *)
Lemma BestQuote_no_miners_returns_zero_quote :
  Miners (clientOf []) = []
  /\ BestQuote world (clientOf []) "mining" "standard"
       (Returns (Some zeroFeeQuoteResponse, None)).
Proof.
  split; [reflexivity |].
  exists []. split; [apply Permutation_refl | reflexivity].
Qed.

(** C5: for the peer set of size zero the code returns, where the claim
    asks for a configuration error and no quote, a nil error and a quote
    that is the zero value of the response (no miner, no schedule, empty
    payload, [Validated = false]), whatever the category and the fee type
    are: [BestQuote] has no guard for an empty list of miners, while
    [FeeQuote] refuses a nil miner and a response without a schedule. *)
Theorem BestQuote_empty_peer_set
    (E : Collaborators) (c : Client) (feeCategory ft : string)
    (out : outcome (option FeeQuoteResponse * option error)) :
  Miners c = [] ->
  (BestQuote E c feeCategory ft out <-> out = Returns (Some zeroFeeQuoteResponse, None)).
Proof.
  intros Hnone. unfold BestQuote. rewrite Hnone. simpl. split.
  - intros (results & Hperm & <-).
    apply Permutation_sym, Permutation_nil in Hperm. now subst results.
  - intros ->. exists []. split; [apply Permutation_refl | reflexivity].
Qed.

Lemma BestQuote_empty_peer_set_witness :
  Miners (clientOf []) = []
  /\ BestQuote world (clientOf []) "relay" "bogus"
       (Returns (Some zeroFeeQuoteResponse, None)).
Proof.
  split; [reflexivity |].
  apply (BestQuote_empty_peer_set world (clientOf []) "relay" "bogus");
    reflexivity.
Defined.

(** C4: for every non-empty peer set whose fetches all succeed and all parse
    and score with positive fees at the reference size, whatever the order
    the results are drained in, BestQuote returns a quote of least fee, the
    first one in drain order: every quote drained before it has a strictly
    larger fee (a candidate replaces the incumbent only when strictly
    smaller), none drained after it has a smaller one, and with distinct
    fees it is the one quote whose fee is the global minimum. *)
Theorem BestQuote_returns_minimum
    (E : Collaborators) (c : Client) (feeCategory ft : string)
    (out : outcome (option FeeQuoteResponse * option error)) :
  Miners c <> [] ->
  (forall m, In m (Miners c) ->
     exists x, scores E feeCategory ft (getQuote E c m) x /\ 0 < snd x) ->
  BestQuote E c feeCategory ft out ->
  exists results pre best post,
    Permutation results (map (getQuote E c) (Miners c))
    /\ Forall2 (scores E feeCategory ft) results (pre ++ best :: post)
    /\ out = Returns (Some (fst best), None)
    /\ BestQuote_drain E feeCategory ft results = out
    /\ Forall (fun x => snd best < snd x) pre
    /\ Forall (fun x => snd best <= snd x) post
    /\ (NoDup (map snd (pre ++ best :: post)) ->
        Forall (fun x => snd best < snd x) post).
Proof.
  intros Hne Hall (results & Hperm & Hout).
  assert (Hres : Forall (fun result =>
                   exists x, scores E feeCategory ft result x /\ 0 < snd x) results).
  { apply Forall_forall. intros result Hin.
    apply (Permutation_in _ Hperm) in Hin. apply in_map_iff in Hin.
    destruct Hin as (m & <- & Hm). now apply Hall. }
  destruct (scored_list E feeCategory ft _ results Hres) as (scored & Hscored & _).
  destruct scored as [| x l].
  - inversion Hscored; subst. apply Permutation_nil in Hperm.
    apply map_eq_nil in Hperm. contradiction.
  - pose proof (drain_scored E feeCategory ft results x l Hscored) as Hdrain.
    destruct (firstMin_first l x) as (pre & post & Heq & Hpre & Hpost).
    exists results, pre, (firstMin x l), post.
    rewrite <- Heq. repeat split; try assumption.
    + now rewrite <- Hout.
    + rewrite Heq, map_app. simpl. intros Hnd.
      apply NoDup_remove_2 in Hnd.
      rewrite Forall_forall in Hpost |- *. intros y Hy.
      specialize (Hpost y Hy).
      assert (snd y <> snd (firstMin x l)); [| lia].
      intros Heqy. apply Hnd, in_or_app. right.
      rewrite <- Heqy. now apply in_map.
Qed.

Lemma BestQuote_returns_minimum_witness :
  let c := clientOf ["alpha"; "beta"] in
  let fetch := getQuote world c in
  let quote := fun name => fst (parseResponseIntoQuote world (fetch (miner name))) in
  let out : outcome (option FeeQuoteResponse * option error) :=
    Returns (Some (quote "beta"), None) in
  Miners c <> []
  /\ (forall m, In m (Miners c) ->
        exists x, scores world "mining" "standard" (fetch m) x /\ 0 < snd x)
  /\ BestQuote world c "mining" "standard" out
  /\ exists results pre best post,
       Permutation results (map fetch (Miners c))
       /\ Forall2 (scores world "mining" "standard") results (pre ++ best :: post)
       /\ out = Returns (Some (fst best), None)
       /\ BestQuote_drain world "mining" "standard" results = out
       /\ Forall (fun x => snd best < snd x) pre
       /\ Forall (fun x => snd best <= snd x) post
       /\ (NoDup (map snd (pre ++ best :: post)) ->
           Forall (fun x => snd best < snd x) post).
Proof.
  intros c fetch quote out.
  assert (H0 : Miners c <> []) by discriminate.
  assert (H1 : forall m, In m (Miners c) ->
                 exists x, scores world "mining" "standard" (fetch m) x /\ 0 < snd x).
  { intros m [<- | [<- | []]].
    - exists (quote "alpha", 500). split; [| reflexivity].
      scores_by_evaluation.
    - exists (quote "beta", 400). split; [| reflexivity].
      scores_by_evaluation. }
  assert (H2 : BestQuote world c "mining" "standard" out).
  { exists (map fetch (Miners c)). split; [apply Permutation_refl | evaluate]. }
  refine (conj H0 (conj H1 (conj H2 _))).
  exact (BestQuote_returns_minimum world c "mining" "standard" out H0 H1 H2).
Defined.

(** ** The fee calculator *)

(** C6: the scan of [GetFee] compares the tag of an entry with the requested
    fee type byte for byte, although the check before it accepts the request
    case-insensitively: an entry tagged ["Standard"] is not found for the
    request ["standard"], the request ["STANDARD"] passes the check and is
    not found in a schedule tagged ["standard"], and on duplicate tags the
    first entry wins. *)
Theorem GetFee_scan_is_case_sensitive :
  EqualFold "Standard" "standard" = true
  /\ GetFee (Some (scheduleOf [feeEntry "Standard" (rate 500 1000) (rate 250 1000)]))
       "mining" "standard" 1000
     = Returns (1, Some (errFeeTypeNotFound "standard"))
  /\ validFeeType "STANDARD" = true
  /\ GetFee (Some (scheduleOf [feeEntry "standard" (rate 500 1000) (rate 250 1000)]))
       "mining" "STANDARD" 1000
     = Returns (1, Some (errFeeTypeNotFound "STANDARD"))
  /\ GetFee (Some (scheduleOf [feeEntry "standard" (rate 500 1000) (rate 250 1000);
                               feeEntry "standard" (rate 300 1000) (rate 250 1000)]))
       "mining" "standard" 1000
     = Returns (500, None).
Proof.
  split; [evaluate |].
  split; [evaluate |].
  split; [evaluate |].
  split; evaluate.
Qed.

(** C9: a schedule decoded from peer data makes the fee calculator panic,
    with an integer division by zero when the rate of the matching entry has
    a zero byte denominator and with a nil dereference when the rate, the
    entry or the schedule itself is missing; [BestQuote] panics with it. *)
Theorem GetFee_panics_on_peer_data :
  GetFee (Some scheduleZeroBytes) "mining" "standard" 1000 = Panics DivideByZero
  /\ GetFee (Some scheduleNoRate) "mining" "standard" 1000 = Panics NilDereference
  /\ GetFee (Some (scheduleOf [None])) "mining" "standard" 1000 = Panics NilDereference
  /\ GetFee None "mining" "standard" 1000 = Panics NilDereference
  /\ BestQuote world (clientOf ["zero"]) "mining" "standard" (Panics DivideByZero)
  /\ BestQuote world (clientOf ["norate"]) "mining" "standard" (Panics NilDereference).
Proof.
  split; [evaluate |].
  split; [evaluate |].
  split; [evaluate |].
  split; [evaluate |].
  split.
  - exists (map (getQuote world (clientOf ["zero"])) [miner "zero"]).
    split; [apply Permutation_refl | evaluate].
  - exists (map (getQuote world (clientOf ["norate"])) [miner "norate"]).
    split; [apply Permutation_refl | evaluate].
Qed.

(** C8, as stated, fails on a negative rate: Go's division truncates toward
    zero, so -1000 / 3 is -333 where floor division gives -334. *)
Lemma GetFee_negative_rate_is_truncated :
  let f := scheduleOf [feeEntry "standard" (rate (-1) 3) (rate 250 1000)] in
  firstMatch (Fees f)
    {| FeeType := "standard";
       MiningFee := rate (-1) 3;
       RelayFee := rate 250 1000 |} "standard"
  /\ GetFee (Some f) "mining" "standard" 1000 = Returns (-333, None)
  /\ (-1 * 1000) / 3 = -334.
Proof.
  intros f. split; [| split; vm_compute; reflexivity].
  exists [], []. split; [reflexivity |]. split; [constructor | reflexivity].
Qed.

(** C8, amended: for every schedule containing a matching entry (the first
    whose tag equals the requested fee type) with a positive byte
    denominator, the computed fee is the quotient, truncated toward zero, of
    the int64 product [rate.satoshis * byteCount] by [rate.bytes], and it is
    returned as it is unless it is zero; it equals
    [(rate.satoshis * byteCount) / rate.bytes] under floor division whenever
    that product is non-negative and fits an int64.  In particular, with
    feeType "standard", category "mining", rate {satoshis:500, bytes:1000}
    and byteCount 1000 the result is exactly 500 with no error. *)
Theorem GetFee_fee_value :
  (forall (f : FeePayload) (fee : feeType) (feeCategory ft : string) (txBytes : Z)
          (r : feeAmount),
     validFeeType ft = true ->
     validFeeCategory feeCategory = true ->
     firstMatch (Fees f) fee ft ->
     requestedRate fee feeCategory = Some r ->
     0 < Bytes r ->
     let q := Z.quot (wrap64 (Satoshis r * txBytes)) (Bytes r) in
     calcFee fee feeCategory txBytes = Returns q
     /\ GetFee (Some f) feeCategory ft txBytes
        = Returns (if q =? 0 then (1, Some errZeroFee) else (q, None))
     /\ (0 <= Satoshis r * txBytes <= MaxInt64 ->
         q = Satoshis r * txBytes / Bytes r))
  /\ GetFee (Some (scheduleOf [feeEntry "standard" (rate 500 1000) (rate 250 1000)]))
       "mining" "standard" 1000
     = Returns (500, None).
Proof.
  split; [| evaluate].
  intros f fee feeCategory ft txBytes r Hft Hcat Hmatch Hrate Hbytes q.
  assert (Hcalc : calcFee fee feeCategory txBytes = Returns q).
  { rewrite (calcFee_rate _ _ _ r Hrate). unfold int64_mul.
    apply int64_div_pos; [apply wrap64_range | assumption]. }
  split; [| split].
  - exact Hcalc.
  - rewrite (GetFee_firstMatch f fee) by assumption. rewrite Hcalc. simpl.
    now destruct (q =? 0).
  - intros Hprod. unfold q. rewrite wrap64_small.
    + apply Z.quot_div_nonneg; lia.
    + unfold is_int64, MinInt64, MaxInt64 in *. lia.
Qed.

Lemma GetFee_fee_value_witness :
  let fee := {| FeeType := "data"; MiningFee := rate 500 1000; RelayFee := rate 250 1000 |} in
  let f := scheduleOf [feeEntry "standard" (rate 500 1000) (rate 250 1000); Some fee] in
  let r := {| Bytes := 1000; Satoshis := 250 |} in
  validFeeType "data" = true
  /\ validFeeCategory "Relay" = true
  /\ firstMatch (Fees f) fee "data"
  /\ requestedRate fee "Relay" = Some r
  /\ 0 < Bytes r
  /\ GetFee (Some f) "Relay" "data" 2500
     = Returns (if Z.quot (wrap64 (Satoshis r * 2500)) (Bytes r) =? 0
                then (1, Some errZeroFee)
                else (Z.quot (wrap64 (Satoshis r * 2500)) (Bytes r), None)).
Proof.
  intros fee f r.
  assert (H0 : validFeeType "data" = true) by evaluate.
  assert (H1 : validFeeCategory "Relay" = true) by evaluate.
  assert (H2 : firstMatch (Fees f) fee "data").
  { exists [{| FeeType := "standard"; MiningFee := rate 500 1000;
               RelayFee := rate 250 1000 |}], [].
    split; [reflexivity |]. split; [| reflexivity].
    constructor; [discriminate | constructor]. }
  assert (H3 : requestedRate fee "Relay" = Some r) by evaluate.
  assert (H4 : 0 < Bytes r) by (simpl; lia).
  refine (conj H0 (conj H1 (conj H2 (conj H3 (conj H4 _))))).
  exact (proj1 (proj2 (proj1 GetFee_fee_value f fee "Relay" "data" 2500 r
                         H0 H1 H2 H3 H4))).
Defined.

(** C7, as stated, fails on the peer [tiny], whose rate of 1 satoshi per
    2000 bytes gives a zero fee at the reference size: [GetFee] returns fee
    1 with the warning, and [BestQuote] treats the warning as any other
    error, returning a nil quote and the warning. *)
Lemma BestQuote_tiny_aborts_on_zero_fee_warning :
  let c := clientOf ["tiny"] in
  1 * referenceBytes / 2000 = 0
  /\ Quote (fst (parseResponseIntoQuote world (getQuote world c (miner "tiny"))))
     = Some scheduleTiny
  /\ GetFee (Some scheduleTiny) "mining" "standard" referenceBytes
     = Returns (1, Some errZeroFee)
  /\ forall out, BestQuote world c "mining" "standard" out <->
                 out = Returns (None, Some errZeroFee).
Proof.
  intros c.
  split; [evaluate |].
  split; [evaluate |].
  split; [evaluate |].
  intros out. split.
  - intros (results & Hperm & <-).
    apply Permutation_sym, Permutation_length_1_inv in Hperm. subst results.
    vm_compute. reflexivity.
  - intros ->. exists (map (getQuote world c) (Miners c)).
    split; [apply Permutation_refl | evaluate].
Qed.

(** C7, amended: for every schedule with a matching entry whose rate makes
    (satoshis * byteCount) / bytes floor to exactly zero, the fee calculator
    returns fee 1 together with the zero-fee warning, never (0, nil), so a
    caller that ignores the error gets the usable nonzero fee of 1; the
    warning is fatal to a BestQuote aggregation all the same: when the drain
    reaches a result whose schedule scores that way, BestQuote returns a nil
    quote and the warning. *)
Theorem GetFee_zero_fee_warning :
  (forall (f : FeePayload) (fee : feeType) (feeCategory ft : string) (txBytes : Z)
          (r : feeAmount),
     validFeeType ft = true ->
     validFeeCategory feeCategory = true ->
     firstMatch (Fees f) fee ft ->
     requestedRate fee feeCategory = Some r ->
     is_int64 (Bytes r) ->
     Bytes r <> 0 ->
     Satoshis r * txBytes / Bytes r = 0 ->
     GetFee (Some f) feeCategory ft txBytes = Returns (1, Some errZeroFee))
  /\ (forall (f : option FeePayload) (feeCategory ft : string) (txBytes : Z),
        GetFee f feeCategory ft txBytes <> Returns (0, None))
  /\ (forall (E : Collaborators) (feeCategory ft : string)
             (pre : list feeResult) (scored : list (FeeQuoteResponse * Z))
             (result : feeResult) (quote : FeeQuoteResponse) (post : list feeResult),
        Forall2 (scores E feeCategory ft) pre scored ->
        Error (Response result) = None ->
        parseResponseIntoQuote E result = (quote, None) ->
        GetFee (Quote quote) feeCategory ft referenceBytes = Returns (1, Some errZeroFee) ->
        BestQuote_drain E feeCategory ft (pre ++ result :: post)
        = Returns (None, Some errZeroFee)).
Proof.
  split; [| split].
  - intros f fee feeCategory ft txBytes r Hft Hcat Hmatch Hrate Hrange Hnz Hfloor.
    rewrite (GetFee_firstMatch f fee) by assumption.
    rewrite (calcFee_rate _ _ _ r Hrate). unfold int64_mul, int64_div.
    destruct (Z.eqb_spec (Bytes r) 0); [contradiction |].
    apply Z.div_small_iff in Hfloor; [| assumption].
    remember (Satoshis r * txBytes) as p eqn:Hp. clear Hp.
    remember (Bytes r) as b eqn:Hb. clear Hb.
    assert (Hprod : is_int64 p).
    { unfold is_int64, MinInt64, MaxInt64 in *. lia. }
    rewrite (wrap64_small p) by assumption.
    replace (Z.quot p b) with 0
      by (symmetry; apply Z.quot_small_iff; lia).
    reflexivity.
  - intros f feeCategory ft txBytes H. now apply GetFee_nonzero in H.
  - intros E feeCategory ft pre scored result quote post Hpre Herr Hparse Hfee.
    unfold BestQuote_drain.
    rewrite (loop_scored_prefix E feeCategory ft pre scored _ Hpre).
    now apply (loop_fee_error E feeCategory ft result post quote 1).
Qed.

Lemma GetFee_zero_fee_warning_witness :
  let fee := {| FeeType := "standard"; MiningFee := rate 1 2000; RelayFee := rate 250 1000 |} in
  let r := {| Bytes := 2000; Satoshis := 1 |} in
  let c := clientOf ["alpha"; "tiny"] in
  let fetch := getQuote world c in
  let quote := fun name => fst (parseResponseIntoQuote world (fetch (miner name))) in
  (validFeeType "standard" = true
   /\ validFeeCategory "mining" = true
   /\ firstMatch (Fees scheduleTiny) fee "standard"
   /\ requestedRate fee "mining" = Some r
   /\ is_int64 (Bytes r)
   /\ Bytes r <> 0
   /\ Satoshis r * 1000 / Bytes r = 0
   /\ GetFee (Some scheduleTiny) "mining" "standard" 1000 = Returns (1, Some errZeroFee))
  /\ (Forall2 (scores world "mining" "standard") [fetch (miner "alpha")]
        [(quote "alpha", 500)]
      /\ Error (Response (fetch (miner "tiny"))) = None
      /\ parseResponseIntoQuote world (fetch (miner "tiny")) = (quote "tiny", None)
      /\ GetFee (Quote (quote "tiny")) "mining" "standard" referenceBytes
         = Returns (1, Some errZeroFee)
      /\ BestQuote_drain world "mining" "standard"
           ([fetch (miner "alpha")] ++ fetch (miner "tiny") :: [])
         = Returns (None, Some errZeroFee)).
Proof.
  intros fee r c fetch quote.
  assert (H0 : validFeeType "standard" = true) by evaluate.
  assert (H1 : validFeeCategory "mining" = true) by evaluate.
  assert (H2 : firstMatch (Fees scheduleTiny) fee "standard").
  { exists [], []. split; [reflexivity |]. split; [constructor | reflexivity]. }
  assert (H3 : requestedRate fee "mining" = Some r) by evaluate.
  assert (H4 : is_int64 (Bytes r)) by (vm_compute; split; discriminate).
  assert (H5 : Bytes r <> 0) by discriminate.
  assert (H6 : Satoshis r * 1000 / Bytes r = 0) by evaluate.
  assert (H7 : Forall2 (scores world "mining" "standard") [fetch (miner "alpha")]
                 [(quote "alpha", 500)]).
  { constructor; [| constructor].
    scores_by_evaluation. }
  assert (H8 : Error (Response (fetch (miner "tiny"))) = None) by evaluate.
  assert (H9 : parseResponseIntoQuote world (fetch (miner "tiny")) = (quote "tiny", None))
    by evaluate.
  assert (H10 : GetFee (Quote (quote "tiny")) "mining" "standard" referenceBytes
                = Returns (1, Some errZeroFee)) by evaluate.
  split.
  - refine (conj H0 (conj H1 (conj H2 (conj H3 (conj H4 (conj H5 (conj H6 _))))))).
    exact (proj1 GetFee_zero_fee_warning scheduleTiny fee "mining" "standard" 1000 r
             H0 H1 H2 H3 H4 H5 H6).
  - refine (conj H7 (conj H8 (conj H9 (conj H10 _)))).
    exact (proj2 (proj2 GetFee_zero_fee_warning) world "mining" "standard"
             [fetch (miner "alpha")] [(quote "alpha", 500)]
             (fetch (miner "tiny")) (quote "tiny") [] H7 H8 H9 H10).
Defined.

(** C10, as stated, fails on a negative rate whose product with the byte
    count is smaller in magnitude than the byte denominator: the quotient
    truncates to zero and the zero-fee branch answers, with fee 1 and the
    warning. *)
Lemma GetFee_small_negative_rate_gives_warning :
  let f := scheduleOf [feeEntry "standard" (rate (-1) 2000) (rate 250 1000)] in
  firstMatch (Fees f)
    {| FeeType := "standard";
       MiningFee := rate (-1) 2000;
       RelayFee := rate 250 1000 |} "standard"
  /\ GetFee (Some f) "mining" "standard" 1000 = Returns (1, Some errZeroFee).
Proof.
  intros f. split; [| evaluate].
  exists [], []. split; [reflexivity |]. split; [constructor | reflexivity].
Qed.

(** C10, amended: the fee calculator performs no sign validation on rates:
    for every schedule whose matching entry has negative satoshis over a
    positive byte denominator, at a positive byte count whose product with
    the satoshis fits an int64 and is at least the denominator in magnitude,
    the computed negative fee is returned with a nil error (the zero-fee
    branch only catches exactly zero, which is what a product of smaller
    magnitude truncates to); and in a BestQuote aggregation such a negative
    fee compares strictly below every positive fee and therefore wins the
    selection, wherever it comes in drain order. *)
Theorem GetFee_negative_fee :
  (forall (f : FeePayload) (fee : feeType) (feeCategory ft : string) (txBytes : Z)
          (r : feeAmount),
     validFeeType ft = true ->
     validFeeCategory feeCategory = true ->
     firstMatch (Fees f) fee ft ->
     requestedRate fee feeCategory = Some r ->
     Satoshis r < 0 ->
     0 < Bytes r ->
     0 < txBytes ->
     MinInt64 <= Satoshis r * txBytes ->
     Bytes r <= - (Satoshis r * txBytes) ->
     Z.quot (Satoshis r * txBytes) (Bytes r) < 0
     /\ GetFee (Some f) feeCategory ft txBytes
        = Returns (Z.quot (Satoshis r * txBytes) (Bytes r), None))
  /\ (forall (E : Collaborators) (feeCategory ft : string) (results : list feeResult)
             (pre : list (FeeQuoteResponse * Z)) (x : FeeQuoteResponse * Z)
             (post : list (FeeQuoteResponse * Z)),
        Forall2 (scores E feeCategory ft) results (pre ++ x :: post) ->
        snd x < 0 ->
        Forall (fun y => 0 < snd y) pre ->
        Forall (fun y => 0 < snd y) post ->
        BestQuote_drain E feeCategory ft results = Returns (Some (fst x), None)).
Proof.
  split.
  - intros f fee feeCategory ft txBytes r Hft Hcat Hmatch Hrate Hsat Hbytes Htx Hmin Hmag.
    assert (Hneg : Z.quot (Satoshis r * txBytes) (Bytes r) < 0).
    { replace (Satoshis r * txBytes) with (- (- (Satoshis r * txBytes))) by lia.
      rewrite Z.quot_opp_l by lia.
      rewrite Z.quot_div_nonneg by lia.
      pose proof (Z.div_str_pos (- (Satoshis r * txBytes)) (Bytes r) ltac:(lia)). lia. }
    split; [exact Hneg |].
    rewrite (GetFee_firstMatch f fee) by assumption.
    rewrite (calcFee_rate _ _ _ r Hrate). unfold int64_mul.
    rewrite wrap64_small
      by (unfold is_int64, MinInt64, MaxInt64 in *; nia).
    rewrite int64_div_pos;
      [| unfold is_int64, MinInt64, MaxInt64 in *; nia | assumption].
    simpl. destruct (Z.eqb_spec (Z.quot (Satoshis r * txBytes) (Bytes r)) 0); [lia |].
    reflexivity.
  - intros E feeCategory ft results pre x post Hscored Hx Hpre Hpost.
    destruct (pre ++ x :: post)%list as [| y l] eqn:Heq;
      [now destruct pre |].
    rewrite (drain_scored E feeCategory ft results y l Hscored).
    assert (Hin : In (firstMin y l) (pre ++ x :: post)) by (rewrite Heq; apply firstMin_In).
    assert (Hle : snd (firstMin y l) <= snd x).
    { apply firstMin_le. rewrite <- Heq. apply in_elt. }
    rewrite Forall_forall in Hpre, Hpost.
    apply in_app_or in Hin. destruct Hin as [Hin | [<- | Hin]].
    + apply Hpre in Hin. lia.
    + reflexivity.
    + apply Hpost in Hin. lia.
Qed.

Lemma GetFee_negative_fee_witness :
  let fee := {| FeeType := "standard"; MiningFee := rate (-5) 1000; RelayFee := rate 250 1000 |} in
  let r := {| Bytes := 1000; Satoshis := -5 |} in
  let c := clientOf ["alpha"; "negative"; "beta"] in
  let fetch := getQuote world c in
  let quote := fun name => fst (parseResponseIntoQuote world (fetch (miner name))) in
  (validFeeType "standard" = true
   /\ validFeeCategory "mining" = true
   /\ firstMatch (Fees scheduleNegative) fee "standard"
   /\ requestedRate fee "mining" = Some r
   /\ Satoshis r < 0
   /\ 0 < Bytes r
   /\ 0 < 1000
   /\ MinInt64 <= Satoshis r * 1000
   /\ Bytes r <= - (Satoshis r * 1000)
   /\ GetFee (Some scheduleNegative) "mining" "standard" 1000
      = Returns (Z.quot (Satoshis r * 1000) (Bytes r), None))
  /\ (Forall2 (scores world "mining" "standard") (map fetch (Miners c))
        ([(quote "alpha", 500)] ++ (quote "negative", -5) :: [(quote "beta", 400)])
      /\ snd (quote "negative", -5) < 0
      /\ Forall (fun y => 0 < snd y) [(quote "alpha", 500)]
      /\ Forall (fun y => 0 < snd y) [(quote "beta", 400)]
      /\ BestQuote_drain world "mining" "standard" (map fetch (Miners c))
         = Returns (Some (fst (quote "negative", -5)), None)).
Proof.
  intros fee r c fetch quote.
  assert (H0 : validFeeType "standard" = true) by evaluate.
  assert (H1 : validFeeCategory "mining" = true) by evaluate.
  assert (H2 : firstMatch (Fees scheduleNegative) fee "standard").
  { exists [], []. split; [reflexivity |]. split; [constructor | reflexivity]. }
  assert (H3 : requestedRate fee "mining" = Some r) by evaluate.
  assert (H4 : Satoshis r < 0) by reflexivity.
  assert (H5 : 0 < Bytes r) by reflexivity.
  assert (H6 : 0 < 1000) by reflexivity.
  assert (H7 : MinInt64 <= Satoshis r * 1000) by (vm_compute; discriminate).
  assert (H8 : Bytes r <= - (Satoshis r * 1000)) by (vm_compute; discriminate).
  assert (H9 : Forall2 (scores world "mining" "standard") (map fetch (Miners c))
                 ([(quote "alpha", 500)] ++ (quote "negative", -5) :: [(quote "beta", 400)])).
  { constructor; [scores_by_evaluation |].
    constructor; [scores_by_evaluation |].
    constructor; [scores_by_evaluation | constructor]. }
  assert (H10 : snd (quote "negative", -5) < 0) by reflexivity.
  assert (H11 : Forall (fun y => 0 < snd y) [(quote "alpha", 500)])
    by (constructor; [reflexivity | constructor]).
  assert (H12 : Forall (fun y => 0 < snd y) [(quote "beta", 400)])
    by (constructor; [reflexivity | constructor]).
  split.
  - refine (conj H0 (conj H1 (conj H2 (conj H3 (conj H4 (conj H5 (conj H6
             (conj H7 (conj H8 _))))))))).
    exact (proj2 (proj1 GetFee_negative_fee scheduleNegative fee "mining" "standard"
                    1000 r H0 H1 H2 H3 H4 H5 H6 H7 H8)).
  - refine (conj H9 (conj H10 (conj H11 (conj H12 _)))).
    exact (proj2 GetFee_negative_fee world "mining" "standard" (map fetch (Miners c))
             [(quote "alpha", 500)] (quote "negative", -5) [(quote "beta", 400)]
             H9 H10 H11 H12).
Defined.

(** * Further properties of the code *)

(** ** The fee calculator *)

Lemma EqualFold_runes_length (s t : list Z) :
  EqualFold_runes s t = true -> List.length s = List.length t.
Proof.
  revert t. induction s as [| sr s IH]; intros [| tr t]; simpl; try discriminate.
  - reflexivity.
  - intros H. apply andb_true_iff in H. destruct H as [_ H]. f_equal. now apply IH.
Qed.

(** Nothing folds to both categories. *)
Lemma EqualFold_relay_not_mining (feeCategory : string) :
  EqualFold feeCategory FeeCategoryRelay = true ->
  EqualFold feeCategory FeeCategoryMining = false.
Proof.
  unfold EqualFold. intros Hrelay.
  apply EqualFold_runes_length in Hrelay.
  destruct (EqualFold_runes (runes feeCategory) (runes FeeCategoryMining)) eqn:Hmining;
    [| reflexivity].
  apply EqualFold_runes_length in Hmining.
  rewrite Hrelay in Hmining. vm_compute in Hmining. discriminate.
Qed.

(** The scan reads the category only through its comparison with
    ["mining"]. *)
Lemma GetFee_loop_category (fees : list (option feeType)) (c1 c2 ft : string) (txBytes : Z) :
  EqualFold c1 FeeCategoryMining = EqualFold c2 FeeCategoryMining ->
  GetFee_loop fees c1 ft txBytes = GetFee_loop fees c2 ft txBytes.
Proof.
  intros Heq. induction fees as [| [fee |] fees IH]; simpl; try reflexivity.
  destruct (String.eqb (FeeType fee) ft); [| exact IH].
  unfold calcFee. now rewrite Heq.
Qed.

Lemma GetFee_valid (f : option FeePayload) (feeCategory ft : string) (txBytes : Z) :
  validFeeType ft = true ->
  validFeeCategory feeCategory = true ->
  GetFee f feeCategory ft txBytes
  = match f with
    | None => Panics NilDereference
    | Some f => GetFee_loop (Fees f) feeCategory ft txBytes
    end.
Proof.
  unfold validFeeType, validFeeCategory, GetFee. intros Hft Hcat.
  apply orb_true_iff in Hft. apply orb_true_iff in Hcat.
  replace (negb (EqualFold ft FeeTypeData) && negb (EqualFold ft FeeTypeStandard))
    with false by (destruct Hft as [-> | ->]; simpl; now rewrite ?andb_false_r).
  replace (negb (EqualFold feeCategory FeeCategoryMining)
           && negb (EqualFold feeCategory FeeCategoryRelay))
    with false by (destruct Hcat as [-> | ->]; simpl; now rewrite ?andb_false_r).
  reflexivity.
Qed.

(** X1: an unrecognized fee type is rejected with fee 0 before anything else
    is looked at, the category and the schedule included (a nil schedule
    does not panic there); with a recognized fee type, an unrecognized
    category is rejected the same way. *)
Theorem GetFee_rejects_unrecognized_parameters
    (f : option FeePayload) (feeCategory ft : string) (txBytes : Z) :
  (validFeeType ft = false ->
   GetFee f feeCategory ft txBytes = Returns (0, Some (errFeeTypeNotRecognized ft)))
  /\ (validFeeType ft = true ->
      validFeeCategory feeCategory = false ->
      GetFee f feeCategory ft txBytes
      = Returns (0, Some (errFeeCategoryNotRecognized feeCategory))).
Proof.
  unfold validFeeType, validFeeCategory, GetFee. split.
  - intros H. apply orb_false_iff in H. destruct H as [-> ->]. reflexivity.
  - intros Hft Hcat. apply orb_true_iff in Hft.
    apply orb_false_iff in Hcat. destruct Hcat as [-> ->].
    destruct Hft as [-> | ->]; simpl; now rewrite ?andb_false_r.
Qed.

Lemma GetFee_rejects_unrecognized_parameters_witness :
  (validFeeType "bogus" = false
   /\ GetFee None "nonsense" "bogus" 1000
      = Returns (0, Some (errFeeTypeNotRecognized "bogus")))
  /\ (validFeeType "Data" = true
      /\ validFeeCategory "minning" = false
      /\ GetFee None "minning" "Data" 1000
         = Returns (0, Some (errFeeCategoryNotRecognized "minning"))).
Proof.
  assert (H0 : validFeeType "bogus" = false) by evaluate.
  assert (H1 : validFeeType "Data" = true) by evaluate.
  assert (H2 : validFeeCategory "minning" = false) by evaluate.
  split.
  - refine (conj H0 _).
    exact (proj1 (GetFee_rejects_unrecognized_parameters None "nonsense" "bogus" 1000) H0).
  - refine (conj H1 (conj H2 _)).
    exact (proj2 (GetFee_rejects_unrecognized_parameters None "minning" "Data" 1000) H1 H2).
Defined.

(** X2: when no entry of the schedule carries the requested fee type, byte
    for byte, and every entry is present, [GetFee] returns fee 1 with the
    error naming the fee type, whatever the rates are; an empty list of fees
    is such a schedule. *)
Theorem GetFee_fee_type_not_found
    (f : FeePayload) (entries : list feeType) (feeCategory ft : string) (txBytes : Z) :
  validFeeType ft = true ->
  validFeeCategory feeCategory = true ->
  Fees f = map Some entries ->
  Forall (fun e => FeeType e <> ft) entries ->
  GetFee (Some f) feeCategory ft txBytes = Returns (1, Some (errFeeTypeNotFound ft)).
Proof.
  intros Hft Hcat Hfees Hnone.
  rewrite GetFee_valid by assumption.
  rewrite Hfees, <- (app_nil_r (map Some entries)).
  now rewrite GetFee_loop_skip.
Qed.

Lemma GetFee_fee_type_not_found_witness :
  let entries := [{| FeeType := "standard"; MiningFee := None; RelayFee := rate 250 0 |}] in
  let f := scheduleOf (map Some entries) in
  validFeeType "data" = true
  /\ validFeeCategory "relay" = true
  /\ Fees f = map Some entries
  /\ Forall (fun e => FeeType e <> "data") entries
  /\ GetFee (Some f) "relay" "data" 1000 = Returns (1, Some (errFeeTypeNotFound "data")).
Proof.
  intros entries f.
  assert (H0 : validFeeType "data" = true) by evaluate.
  assert (H1 : validFeeCategory "relay" = true) by evaluate.
  assert (H2 : Fees f = map Some entries) by reflexivity.
  assert (H3 : Forall (fun e => FeeType e <> "data") entries)
    by (constructor; [discriminate | constructor]).
  refine (conj H0 (conj H1 (conj H2 (conj H3 _)))).
  exact (GetFee_fee_type_not_found f entries "relay" "data" 1000 H0 H1 H2 H3).
Defined.

Lemma GetFee_loop_results (fees : list (option feeType)) (feeCategory ft : string)
    (txBytes fee : Z) (err : option error) :
  GetFee_loop fees feeCategory ft txBytes = Returns (fee, err) ->
  (err = None /\ fee <> 0 /\ is_int64 fee)
  \/ (fee = 1 /\ (err = Some errZeroFee \/ err = Some (errFeeTypeNotFound ft))).
Proof.
  induction fees as [| [e |] fees IH]; simpl; try discriminate.
  - intros H. injection H as <- <-. right. split; [reflexivity | now right].
  - destruct (String.eqb (FeeType e) ft); [| exact IH].
    destruct (calcFee e feeCategory txBytes) as [c | p] eqn:Hcalc; simpl; [| discriminate].
    assert (Hrange : is_int64 c).
    { unfold calcFee in Hcalc.
      destruct (EqualFold feeCategory FeeCategoryMining);
        [destruct (MiningFee e) as [r |] | destruct (RelayFee e) as [r |]];
        try discriminate;
        unfold int64_div in Hcalc; destruct (Bytes r =? 0); try discriminate;
        injection Hcalc as <-; apply wrap64_range. }
    destruct (Z.eqb_spec c 0); simpl; intros H; injection H as <- <-.
    + right. split; [reflexivity | now left].
    + left. split; [reflexivity | split; assumption].
Qed.

(** X3: whatever [GetFee] returns, a fee without an error is a nonzero
    int64, and a fee next to an error is 0 for an unrecognized parameter and
    1 for a zero fee or a fee type that is not found; it returns no other
    error. *)
Theorem GetFee_results
    (f : option FeePayload) (feeCategory ft : string) (txBytes fee : Z)
    (err : option error) :
  GetFee f feeCategory ft txBytes = Returns (fee, err) ->
  (err = None /\ fee <> 0 /\ is_int64 fee)
  \/ (fee = 0 /\ (err = Some (errFeeTypeNotRecognized ft)
                  \/ err = Some (errFeeCategoryNotRecognized feeCategory)))
  \/ (fee = 1 /\ (err = Some errZeroFee \/ err = Some (errFeeTypeNotFound ft))).
Proof.
  unfold GetFee.
  destruct (negb (EqualFold ft FeeTypeData) && negb (EqualFold ft FeeTypeStandard)).
  { intros H. injection H as <- <-. right. left. split; [reflexivity | now left]. }
  destruct (negb (EqualFold feeCategory FeeCategoryMining)
            && negb (EqualFold feeCategory FeeCategoryRelay)).
  { intros H. injection H as <- <-. right. left. split; [reflexivity | now right]. }
  destruct f as [f |]; [| discriminate].
  intros H. apply GetFee_loop_results in H. tauto.
Qed.

Lemma GetFee_results_witness :
  GetFee (Some Symbolic.scheduleNegative) "mining" "standard" 1000 = Returns (-5, None)
  /\ (((None : option error) = None /\ -5 <> 0 /\ is_int64 (-5))
      \/ (-5 = 0 /\ (None = Some (errFeeTypeNotRecognized "standard")
                     \/ None = Some (errFeeCategoryNotRecognized "mining")))
      \/ (-5 = 1 /\ (None = Some errZeroFee \/ None = Some (errFeeTypeNotFound "standard")))).
Proof.
  assert (H0 : GetFee (Some Symbolic.scheduleNegative) "mining" "standard" 1000
               = Returns (-5, None)) by evaluate.
  refine (conj H0 _).
  exact (GetFee_results _ "mining" "standard" 1000 (-5) None H0).
Defined.

(** X4: the fee category is read without regard to case: a category that
    folds to ["mining"] gives in every respect the result of ["mining"], and
    one that folds to ["relay"] the result of ["relay"]. *)
Theorem GetFee_category_is_case_insensitive
    (f : option FeePayload) (feeCategory ft : string) (txBytes : Z) :
  (EqualFold feeCategory FeeCategoryMining = true ->
   GetFee f feeCategory ft txBytes = GetFee f FeeCategoryMining ft txBytes)
  /\ (EqualFold feeCategory FeeCategoryRelay = true ->
      GetFee f feeCategory ft txBytes = GetFee f FeeCategoryRelay ft txBytes).
Proof.
  split; intros Hcat.
  - unfold GetFee. rewrite Hcat.
    replace (EqualFold FeeCategoryMining FeeCategoryMining) with true by evaluate.
    simpl.
    destruct (negb (EqualFold ft FeeTypeData) && negb (EqualFold ft FeeTypeStandard));
      [reflexivity |].
    destruct f as [f |]; [| reflexivity].
    apply GetFee_loop_category. rewrite Hcat. evaluate.
  - pose proof (EqualFold_relay_not_mining feeCategory Hcat) as Hnot.
    unfold GetFee. rewrite Hcat, Hnot.
    replace (EqualFold FeeCategoryRelay FeeCategoryMining) with false by evaluate.
    replace (EqualFold FeeCategoryRelay FeeCategoryRelay) with true by evaluate.
    simpl.
    destruct (negb (EqualFold ft FeeTypeData) && negb (EqualFold ft FeeTypeStandard));
      [reflexivity |].
    destruct f as [f |]; [| reflexivity].
    apply GetFee_loop_category. rewrite Hnot. evaluate.
Qed.

Lemma GetFee_category_is_case_insensitive_witness :
  (EqualFold "MiNiNg" FeeCategoryMining = true
   /\ GetFee (Some Symbolic.schedule400) "MiNiNg" "standard" 1000
      = GetFee (Some Symbolic.schedule400) FeeCategoryMining "standard" 1000)
  /\ (EqualFold "RELAY" FeeCategoryRelay = true
      /\ GetFee (Some Symbolic.schedule400) "RELAY" "standard" 1000
         = GetFee (Some Symbolic.schedule400) FeeCategoryRelay "standard" 1000).
Proof.
  assert (H0 : EqualFold "MiNiNg" FeeCategoryMining = true) by evaluate.
  assert (H1 : EqualFold "RELAY" FeeCategoryRelay = true) by evaluate.
  split.
  - refine (conj H0 _).
    exact (proj1 (GetFee_category_is_case_insensitive
                    (Some Symbolic.schedule400) "MiNiNg" "standard" 1000) H0).
  - refine (conj H1 _).
    exact (proj2 (GetFee_category_is_case_insensitive
                    (Some Symbolic.schedule400) "RELAY" "standard" 1000) H1).
Defined.

(** X5: the result depends on the schedule only through the rate that the
    first entry of the requested fee type carries for the requested
    category: two schedules that agree on it give the same fee and the same
    error, whatever their other entries, later entries of the same type and
    the rate of the other category are (missing ones included). *)
Theorem GetFee_reads_first_match_only
    (f f' : FeePayload) (fee fee' : feeType) (feeCategory ft : string) (txBytes : Z)
    (r : feeAmount) :
  validFeeType ft = true ->
  validFeeCategory feeCategory = true ->
  firstMatch (Fees f) fee ft ->
  firstMatch (Fees f') fee' ft ->
  requestedRate fee feeCategory = Some r ->
  requestedRate fee' feeCategory = Some r ->
  GetFee (Some f) feeCategory ft txBytes = GetFee (Some f') feeCategory ft txBytes.
Proof.
  intros Hft Hcat Hm Hm' Hr Hr'.
  rewrite (GetFee_firstMatch f fee), (GetFee_firstMatch f' fee') by assumption.
  now rewrite (calcFee_rate fee _ _ r), (calcFee_rate fee' _ _ r).
Qed.

Lemma GetFee_reads_first_match_only_witness :
  let fee := {| FeeType := "data"; MiningFee := rate 300 1000; RelayFee := None |} in
  let fee' := {| FeeType := "data"; MiningFee := rate 300 1000; RelayFee := rate 1 0 |} in
  let f := scheduleOf [Some fee; None; feeEntry "data" (rate 1 1) None] in
  let f' := scheduleOf [feeEntry "standard" None None; Some fee'] in
  let r := {| Bytes := 1000; Satoshis := 300 |} in
  validFeeType "data" = true
  /\ validFeeCategory "mining" = true
  /\ firstMatch (Fees f) fee "data"
  /\ firstMatch (Fees f') fee' "data"
  /\ requestedRate fee "mining" = Some r
  /\ requestedRate fee' "mining" = Some r
  /\ GetFee (Some f) "mining" "data" 2000 = GetFee (Some f') "mining" "data" 2000.
Proof.
  intros fee fee' f f' r.
  assert (H0 : validFeeType "data" = true) by evaluate.
  assert (H1 : validFeeCategory "mining" = true) by evaluate.
  assert (H2 : firstMatch (Fees f) fee "data").
  { exists [], [None; feeEntry "data" (rate 1 1) None].
    split; [reflexivity |]. split; [constructor | reflexivity]. }
  assert (H3 : firstMatch (Fees f') fee' "data").
  { exists [{| FeeType := "standard"; MiningFee := None; RelayFee := None |}], [].
    split; [reflexivity |]. split; [| reflexivity].
    constructor; [discriminate | constructor]. }
  assert (H4 : requestedRate fee "mining" = Some r) by evaluate.
  assert (H5 : requestedRate fee' "mining" = Some r) by evaluate.
  refine (conj H0 (conj H1 (conj H2 (conj H3 (conj H4 (conj H5 _)))))).
  exact (GetFee_reads_first_match_only f f' fee fee' "mining" "data" 2000 r
           H0 H1 H2 H3 H4 H5).
Defined.

(** For a rate that is not negative and a product that fits an int64 the
    fee is the floor of the quotient, raised to 1 with the warning where
    that is zero. *)
Lemma GetFee_nonnegative_rate
    (f : FeePayload) (fee : feeType) (feeCategory ft : string) (txBytes : Z)
    (r : feeAmount) :
  validFeeType ft = true ->
  validFeeCategory feeCategory = true ->
  firstMatch (Fees f) fee ft ->
  requestedRate fee feeCategory = Some r ->
  0 <= Satoshis r ->
  0 < Bytes r ->
  0 <= txBytes ->
  Satoshis r * txBytes <= MaxInt64 ->
  GetFee (Some f) feeCategory ft txBytes
  = Returns (feeAtLeastOne r txBytes,
             if Satoshis r * txBytes <? Bytes r then Some errZeroFee else None).
Proof.
  intros Hft Hcat Hm Hr Hsat Hbytes Htx Hfit.
  rewrite (GetFee_firstMatch f fee) by assumption.
  rewrite (calcFee_rate fee _ _ r Hr). unfold int64_mul, feeAtLeastOne.
  assert (Hprod : 0 <= Satoshis r * txBytes) by nia.
  rewrite wrap64_small by (unfold is_int64, MinInt64, MaxInt64 in *; lia).
  rewrite int64_div_pos;
    [| unfold is_int64, MinInt64, MaxInt64 in *; lia | assumption].
  rewrite Z.quot_div_nonneg by lia. simpl.
  pose proof (Z.div_pos (Satoshis r * txBytes) (Bytes r) Hprod Hbytes) as Hq.
  destruct (Z.ltb_spec (Satoshis r * txBytes) (Bytes r)) as [Hlt | Hge].
  - rewrite Z.div_small by lia. reflexivity.
  - pose proof (Z.div_str_pos (Satoshis r * txBytes) (Bytes r) ltac:(lia)) as Hpos.
    destruct (Z.eqb_spec (Satoshis r * txBytes / Bytes r) 0); [lia |].
    simpl. now rewrite Z.max_r by lia.
Qed.

(** X6: with a rate that is not negative, the fee never falls when the
    transaction grows: for sizes [0 <= txBytes1 <= txBytes2] whose product
    with the satoshis fits an int64, the fees returned for the two sizes
    (the warning, if any, put aside) are at least 1 and in the same
    order. *)
Theorem GetFee_is_monotone_in_size
    (f : FeePayload) (fee : feeType) (feeCategory ft : string) (txBytes1 txBytes2 : Z)
    (r : feeAmount) :
  validFeeType ft = true ->
  validFeeCategory feeCategory = true ->
  firstMatch (Fees f) fee ft ->
  requestedRate fee feeCategory = Some r ->
  0 <= Satoshis r ->
  0 < Bytes r ->
  0 <= txBytes1 <= txBytes2 ->
  Satoshis r * txBytes2 <= MaxInt64 ->
  exists fee1 err1 fee2 err2,
    GetFee (Some f) feeCategory ft txBytes1 = Returns (fee1, err1)
    /\ GetFee (Some f) feeCategory ft txBytes2 = Returns (fee2, err2)
    /\ 1 <= fee1 <= fee2.
Proof.
  intros Hft Hcat Hm Hr Hsat Hbytes Htx Hfit.
  exists (feeAtLeastOne r txBytes1),
         (if Satoshis r * txBytes1 <? Bytes r then Some errZeroFee else None),
         (feeAtLeastOne r txBytes2),
         (if Satoshis r * txBytes2 <? Bytes r then Some errZeroFee else None).
  split; [| split].
  - apply (GetFee_nonnegative_rate f fee); try assumption; nia.
  - apply (GetFee_nonnegative_rate f fee); try assumption; lia.
  - unfold feeAtLeastOne.
    assert (Hdiv : Satoshis r * txBytes1 / Bytes r <= Satoshis r * txBytes2 / Bytes r)
      by (apply Z.div_le_mono; nia).
    lia.
Qed.

Lemma GetFee_is_monotone_in_size_witness :
  let fee := {| FeeType := "standard"; MiningFee := rate 1 2000; RelayFee := rate 250 1000 |} in
  let r := {| Bytes := 2000; Satoshis := 1 |} in
  validFeeType "standard" = true
  /\ validFeeCategory "mining" = true
  /\ firstMatch (Fees Symbolic.scheduleTiny) fee "standard"
  /\ requestedRate fee "mining" = Some r
  /\ 0 <= Satoshis r
  /\ 0 < Bytes r
  /\ 0 <= 1000 <= 5000
  /\ Satoshis r * 5000 <= MaxInt64
  /\ exists fee1 err1 fee2 err2,
       GetFee (Some Symbolic.scheduleTiny) "mining" "standard" 1000 = Returns (fee1, err1)
       /\ GetFee (Some Symbolic.scheduleTiny) "mining" "standard" 5000 = Returns (fee2, err2)
       /\ 1 <= fee1 <= fee2.
Proof.
  intros fee r.
  assert (H0 : validFeeType "standard" = true) by evaluate.
  assert (H1 : validFeeCategory "mining" = true) by evaluate.
  assert (H2 : firstMatch (Fees Symbolic.scheduleTiny) fee "standard").
  { exists [], []. split; [reflexivity |]. split; [constructor | reflexivity]. }
  assert (H3 : requestedRate fee "mining" = Some r) by evaluate.
  assert (H4 : 0 <= Satoshis r) by (vm_compute; discriminate).
  assert (H5 : 0 < Bytes r) by reflexivity.
  assert (H6 : 0 <= 1000 <= 5000) by (split; vm_compute; discriminate).
  assert (H7 : Satoshis r * 5000 <= MaxInt64) by (vm_compute; discriminate).
  refine (conj H0 (conj H1 (conj H2 (conj H3 (conj H4 (conj H5 (conj H6 (conj H7 _)))))))).
  exact (GetFee_is_monotone_in_size Symbolic.scheduleTiny fee "mining" "standard"
           1000 5000 r H0 H1 H2 H3 H4 H5 H6 H7).
Defined.

(** ** The envelope parser *)

(** The payload step leaves [Validated] alone. *)
Lemma unmarshalPayload_Validated (E : Collaborators) (r0 r1 : FeeQuoteResponse)
    (err : option error) :
  unmarshalPayload E r0 = (r1, err) -> Validated r1 = Validated r0.
Proof.
  unfold unmarshalPayload. destruct (nonempty (Payload r0)).
  - destruct (json_Unmarshal_FeePayload E _ _) as [quote e].
    intros H. now injection H as <- _.
  - intros H. now injection H as <- _.
Qed.

Lemma validateSignature_Payload (E : Collaborators) (r : FeeQuoteResponse) :
  Payload (fst (validateSignature E r)) = Payload r.
Proof.
  unfold validateSignature.
  destruct (nonempty (Signature r) && nonempty (PublicKey r)); [| reflexivity].
  now destruct (bitcoin_VerifyMessageDER E _ _ _).
Qed.

(** X7: a response in which the signature or the public key is empty is not
    verified at all: once both decodings succeed it is returned without an
    error and with [Validated] as the envelope decoder left it. *)
Theorem parseResponseIntoQuote_unsigned
    (E : Collaborators) (result : feeResult) (r0 r1 : FeeQuoteResponse) :
  json_Unmarshal_FeeQuoteResponse E (BodyContents (Response result))
    (set_ResponseMiner (ResultMiner result) zeroFeeQuoteResponse) = (r0, None) ->
  unmarshalPayload E r0 = (r1, None) ->
  nonempty (Signature r0) && nonempty (PublicKey r0) = false ->
  parseResponseIntoQuote E result = (r1, None)
  /\ Validated r1 = Validated r0.
Proof.
  intros Houter Hpayload Hunsigned.
  destruct (unmarshalPayload_fields E r0 r1 None Hpayload) as (Hs & Hk & _).
  split; [| now apply (unmarshalPayload_Validated E r0 r1 None)].
  unfold parseResponseIntoQuote. rewrite Houter, Hpayload.
  unfold validateSignature. now rewrite Hs, Hk, Hunsigned.
Qed.

Lemma parseResponseIntoQuote_unsigned_witness :
  let result := getQuote Peers.world (Symbolic.clientOf ["unsigned"]) (Symbolic.miner "unsigned") in
  let r0 := fst (Peers.unmarshalEnvelope (BodyContents (Response result))
                   (set_ResponseMiner (ResultMiner result) zeroFeeQuoteResponse)) in
  let r1 := fst (unmarshalPayload Peers.world r0) in
  json_Unmarshal_FeeQuoteResponse Peers.world (BodyContents (Response result))
    (set_ResponseMiner (ResultMiner result) zeroFeeQuoteResponse) = (r0, None)
  /\ unmarshalPayload Peers.world r0 = (r1, None)
  /\ nonempty (Signature r0) && nonempty (PublicKey r0) = false
  /\ parseResponseIntoQuote Peers.world result = (r1, None)
  /\ Validated r1 = Validated r0.
Proof.
  intros result r0 r1.
  assert (H0 : json_Unmarshal_FeeQuoteResponse Peers.world (BodyContents (Response result))
                 (set_ResponseMiner (ResultMiner result) zeroFeeQuoteResponse) = (r0, None))
    by evaluate.
  assert (H1 : unmarshalPayload Peers.world r0 = (r1, None)) by evaluate.
  assert (H2 : nonempty (Signature r0) && nonempty (PublicKey r0) = false) by evaluate.
  refine (conj H0 (conj H1 (conj H2 _))).
  exact (parseResponseIntoQuote_unsigned Peers.world result r0 r1 H0 H1 H2).
Defined.

(** X8: once the envelope is decoded, the [Payload] of the response that
    [parseResponseIntoQuote] hands back is the received payload with every
    backslash removed, whether the rest of the parse succeeds or fails; it
    holds no backslash. *)
Theorem parseResponseIntoQuote_payload_is_stripped
    (E : Collaborators) (result : feeResult) (r0 : FeeQuoteResponse) :
  json_Unmarshal_FeeQuoteResponse E (BodyContents (Response result))
    (set_ResponseMiner (ResultMiner result) zeroFeeQuoteResponse) = (r0, None) ->
  Payload (fst (parseResponseIntoQuote E result)) = Replace (Payload r0) "\" EmptyString
  /\ forall c, In c (list_ascii_of_string (Payload (fst (parseResponseIntoQuote E result)))) ->
               c <> "\"%char.
Proof.
  intros Houter.
  assert (Hstripped : Payload (fst (parseResponseIntoQuote E result))
                      = Replace (Payload r0) "\" EmptyString).
  { unfold parseResponseIntoQuote. rewrite Houter.
    destruct (unmarshalPayload E r0) as [r1 err] eqn:Hpayload.
    destruct (unmarshalPayload_fields E r0 r1 err Hpayload) as (_ & _ & Hp & _).
    destruct err as [e |]; [exact Hp |].
    now rewrite validateSignature_Payload. }
  split; [exact Hstripped |].
  intros c. rewrite Hstripped. apply Replace_removes.
Qed.

Lemma parseResponseIntoQuote_payload_is_stripped_witness :
  let result := getQuote Peers.world (Symbolic.clientOf ["broken"]) (Symbolic.miner "broken") in
  let r0 := fst (Peers.unmarshalEnvelope (BodyContents (Response result))
                   (set_ResponseMiner (ResultMiner result) zeroFeeQuoteResponse)) in
  json_Unmarshal_FeeQuoteResponse Peers.world (BodyContents (Response result))
    (set_ResponseMiner (ResultMiner result) zeroFeeQuoteResponse) = (r0, None)
  /\ Payload (fst (parseResponseIntoQuote Peers.world result))
     = Replace (Payload r0) "\" EmptyString.
Proof.
  intros result r0.
  assert (H0 : json_Unmarshal_FeeQuoteResponse Peers.world (BodyContents (Response result))
                 (set_ResponseMiner (ResultMiner result) zeroFeeQuoteResponse) = (r0, None))
    by evaluate.
  refine (conj H0 _).
  exact (proj1 (parseResponseIntoQuote_payload_is_stripped Peers.world result r0 H0)).
Defined.

(** X9: the verifier has no say in a response that fails to decode or is
    not signed: if the envelope or the payload does not decode, or the
    signature or the public key is empty, [parseResponseIntoQuote] returns
    the same response and the same error under any other hash and verifier. *)
Theorem parseResponseIntoQuote_without_verifier
    (E E' : Collaborators) (result : feeResult) :
  sameDecoders E E' ->
  let outer :=
    json_Unmarshal_FeeQuoteResponse E (BodyContents (Response result))
      (set_ResponseMiner (ResultMiner result) zeroFeeQuoteResponse) in
  snd outer <> None
  \/ snd (unmarshalPayload E (fst outer)) <> None
  \/ nonempty (Signature (fst outer)) && nonempty (PublicKey (fst outer)) = false ->
  parseResponseIntoQuote E result = parseResponseIntoQuote E' result.
Proof.
  intros [Henv Hpay] outer Hcase.
  assert (Hstep : forall r, unmarshalPayload E' r = unmarshalPayload E r).
  { intros r. unfold unmarshalPayload. now rewrite Hpay. }
  unfold parseResponseIntoQuote. rewrite <- Henv. fold outer.
  destruct outer as [r0 [e |]] eqn:Houter; [reflexivity |].
  rewrite Hstep. simpl in Hcase.
  destruct (unmarshalPayload E r0) as [r1 [e |]] eqn:Hpayload; [reflexivity |].
  destruct (unmarshalPayload_fields E r0 r1 None Hpayload) as (Hs & Hk & _).
  simpl in Hcase. destruct Hcase as [Hc | [Hc | Hc]]; try congruence.
  unfold validateSignature. now rewrite Hs, Hk, Hc.
Qed.

Lemma parseResponseIntoQuote_without_verifier_witness :
  let result := getQuote Peers.world (Symbolic.clientOf ["broken"]) (Symbolic.miner "broken") in
  let outer :=
    json_Unmarshal_FeeQuoteResponse Peers.world (BodyContents (Response result))
      (set_ResponseMiner (ResultMiner result) zeroFeeQuoteResponse) in
  sameDecoders Peers.world Peers.gullible
  /\ (snd outer <> None
      \/ snd (unmarshalPayload Peers.world (fst outer)) <> None
      \/ nonempty (Signature (fst outer)) && nonempty (PublicKey (fst outer)) = false)
  /\ parseResponseIntoQuote Peers.world result = parseResponseIntoQuote Peers.gullible result.
Proof.
  intros result outer.
  assert (H0 : sameDecoders Peers.world Peers.gullible) by (split; reflexivity).
  assert (H1 : snd outer <> None
               \/ snd (unmarshalPayload Peers.world (fst outer)) <> None
               \/ nonempty (Signature (fst outer)) && nonempty (PublicKey (fst outer)) = false).
  { right. left. vm_compute. discriminate. }
  refine (conj H0 (conj H1 _)).
  exact (parseResponseIntoQuote_without_verifier Peers.world Peers.gullible result H0 H1).
Defined.

(** ** The single-peer quote *)

(** X10: [FeeQuote] returns either a quote and no error or an error and no
    quote, never both and never neither; a quote is returned only for a
    miner that is not nil, a fetch without transport error, a response that
    parses without error and a schedule that is present and holds at least
    one fee entry. *)
Theorem FeeQuote_quote_or_error
    (E : Collaborators) (c : Client) (miner : option Miner) :
  (exists m r q,
      miner = Some m
      /\ FeeQuote E c miner = (Some r, None)
      /\ Error (Response (getQuote E c m)) = None
      /\ parseResponseIntoQuote E (getQuote E c m) = (r, None)
      /\ Quote r = Some q
      /\ Fees q <> [])
  \/ (exists e, FeeQuote E c miner = (None, Some e)).
Proof.
  unfold FeeQuote. destruct miner as [m |]; [| right; now eexists].
  destruct (Error (Response (getQuote E c m))) as [e |] eqn:Hfetch; [right; now eexists |].
  destruct (parseResponseIntoQuote E (getQuote E c m)) as [r [e |]] eqn:Hparse;
    [right; now eexists |].
  destruct (Quote r) as [q |] eqn:Hquote; [| right; now eexists].
  destruct (Fees q) as [| fee fees] eqn:Hfees; [right; now eexists |].
  left. exists m, r, q.
  split; [reflexivity |]. split; [reflexivity |]. split; [exact Hfetch |].
  split; [exact Hparse |]. split; [exact Hquote |].
  rewrite Hfees. discriminate.
Qed.

(** X11: a response that parses without error but carries no schedule, or a
    schedule without fee entries, is refused by [FeeQuote] with the error
    that names the miner, valid signature or not. *)
Theorem FeeQuote_without_fee_entries
    (E : Collaborators) (c : Client) (m : Miner) (r : FeeQuoteResponse) :
  Error (Response (getQuote E c m)) = None ->
  parseResponseIntoQuote E (getQuote E c m) = (r, None) ->
  (forall q, Quote r = Some q -> Fees q = []) ->
  FeeQuote E c (Some m) = (None, Some (errFailedGettingQuotes (Name m))).
Proof.
  intros Hfetch Hparse Hempty. unfold FeeQuote. rewrite Hfetch, Hparse.
  destruct (Quote r) as [q |]; [| reflexivity].
  now rewrite (Hempty q eq_refl).
Qed.

Lemma FeeQuote_without_fee_entries_witness :
  let c := Symbolic.clientOf ["null"] in
  let m := Symbolic.miner "null" in
  let r := fst (parseResponseIntoQuote Peers.world (getQuote Peers.world c m)) in
  Error (Response (getQuote Peers.world c m)) = None
  /\ parseResponseIntoQuote Peers.world (getQuote Peers.world c m) = (r, None)
  /\ (forall q, Quote r = Some q -> Fees q = [])
  /\ Validated r = true
  /\ FeeQuote Peers.world c (Some m) = (None, Some (errFailedGettingQuotes (Name m))).
Proof.
  intros c m r.
  assert (H0 : Error (Response (getQuote Peers.world c m)) = None) by evaluate.
  assert (H1 : parseResponseIntoQuote Peers.world (getQuote Peers.world c m) = (r, None))
    by evaluate.
  assert (H2 : forall q, Quote r = Some q -> Fees q = []).
  { intros q Hq. vm_compute in Hq. discriminate. }
  assert (H3 : Validated r = true) by evaluate.
  refine (conj H0 (conj H1 (conj H2 (conj H3 _)))).
  exact (FeeQuote_without_fee_entries Peers.world c m r H0 H1 H2).
Defined.

(** ** The aggregation *)

Lemma Forall2_In_left {A B : Type} (R : A -> B -> Prop) (l : list A) (l' : list B) (a : A) :
  Forall2 R l l' -> In a l -> exists b, In b l' /\ R a b.
Proof.
  induction 1 as [| x y l l' Hxy _ IH]; intros Hin; [contradiction |].
  destruct Hin as [<- | Hin].
  - exists y. split; [now left | exact Hxy].
  - destruct (IH Hin) as (b & Hb & Hab). exists b. split; [now right | exact Hab].
Qed.

Lemma Forall2_In_right {A B : Type} (R : A -> B -> Prop) (l : list A) (l' : list B) (b : B) :
  Forall2 R l l' -> In b l' -> exists a, In a l /\ R a b.
Proof.
  induction 1 as [| x y l l' Hxy _ IH]; intros Hin; [contradiction |].
  destruct Hin as [<- | Hin].
  - exists x. split; [now left | exact Hxy].
  - destruct (IH Hin) as (a & Ha & Hab). exists a. split; [now right | exact Hab].
Qed.

(** A result has one score at most. *)
Lemma scores_unique (E : Collaborators) (feeCategory ft : string) (result : feeResult)
    (x y : FeeQuoteResponse * Z) :
  scores E feeCategory ft result x -> scores E feeCategory ft result y -> x = y.
Proof.
  intros (_ & Hpx & Hfx) (_ & Hpy & Hfy).
  destruct x as [qx fx], y as [qy fy]. simpl in *.
  rewrite Hpx in Hpy. injection Hpy as ->.
  rewrite Hfx in Hfy. now injection Hfy as ->.
Qed.

(** The three ways out of the loop. *)
Lemma loop_outcomes (E : Collaborators) (feeCategory ft : string)
    (results : list feeResult) (bestRate : Z) (bestQuote : FeeQuoteResponse) :
  (exists q, BestQuote_loop E feeCategory ft results bestRate bestQuote
             = Returns (Some q, None))
  \/ (exists e, BestQuote_loop E feeCategory ft results bestRate bestQuote
                = Returns (None, Some e))
  \/ (exists p, BestQuote_loop E feeCategory ft results bestRate bestQuote = Panics p).
Proof.
  revert bestRate bestQuote.
  induction results as [| result rest IH]; intros bestRate bestQuote; simpl.
  - left. now eexists.
  - destruct (Error (Response result)) as [e |]; [right; left; now eexists |].
    destruct (parseResponseIntoQuote E result) as [quote [e |]];
      [right; left; now eexists |].
    destruct (GetFee (Quote quote) feeCategory ft referenceBytes)
      as [[fee [e |]] | p]; simpl.
    + right. left. destruct (bestRate =? 0); now eexists.
    + destruct (bestRate =? 0); [apply IH |].
      destruct (fee <? bestRate); apply IH.
    + right. right. destruct (bestRate =? 0); now eexists.
Qed.

(** The loop hands back a quote only when every result scores. *)
Lemma loop_quote_scored (E : Collaborators) (feeCategory ft : string)
    (results : list feeResult) (q : FeeQuoteResponse) :
  forall (bestRate : Z) (bestQuote : FeeQuoteResponse),
    BestQuote_loop E feeCategory ft results bestRate bestQuote = Returns (Some q, None) ->
    exists scored, Forall2 (scores E feeCategory ft) results scored.
Proof.
  induction results as [| result rest IH]; intros bestRate bestQuote; simpl.
  - intros _. exists []. constructor.
  - destruct (Error (Response result)) as [e |] eqn:Hfetch; [discriminate |].
    destruct (parseResponseIntoQuote E result) as [quote [e |]] eqn:Hparse;
      [discriminate |].
    destruct (GetFee (Quote quote) feeCategory ft referenceBytes)
      as [[fee [e |]] | p] eqn:Hfee; simpl.
    + destruct (bestRate =? 0); discriminate.
    + intros Hrest.
      assert (Hscored : exists scored, Forall2 (scores E feeCategory ft) rest scored).
      { destruct (bestRate =? 0); [now apply IH in Hrest |].
        destruct (fee <? bestRate); now apply IH in Hrest. }
      destruct Hscored as (scored & Hscored).
      exists ((quote, fee) :: scored). constructor; [| exact Hscored].
      split; [exact Hfetch |]. split; [exact Hparse | exact Hfee].
    + destruct (bestRate =? 0); discriminate.
Qed.

(** The quote [BestQuote] returns for a client with miners is the first of
    least fee among the scores of all results, in the order of the drain. *)
Lemma BestQuote_winner (E : Collaborators) (c : Client) (feeCategory ft : string)
    (q : FeeQuoteResponse) :
  Miners c <> [] ->
  BestQuote E c feeCategory ft (Returns (Some q, None)) ->
  exists results x l,
    Permutation results (map (getQuote E c) (Miners c))
    /\ Forall2 (scores E feeCategory ft) results (x :: l)
    /\ q = fst (firstMin x l).
Proof.
  intros Hne (results & Hperm & Hdrain).
  destruct (loop_quote_scored E feeCategory ft results q _ _ Hdrain) as (scored & Hscored).
  destruct scored as [| x l].
  - inversion Hscored; subst. apply Permutation_nil in Hperm.
    apply map_eq_nil in Hperm. contradiction.
  - exists results, x, l. split; [exact Hperm |]. split; [exact Hscored |].
    rewrite (drain_scored E feeCategory ft results x l Hscored) in Hdrain.
    now injection Hdrain as <-.
Qed.

(** The winner scores one of the miners, at a fee no other miner beats. *)
Lemma BestQuote_winner_least (E : Collaborators) (c : Client) (feeCategory ft : string)
    (q : FeeQuoteResponse) :
  Miners c <> [] ->
  BestQuote E c feeCategory ft (Returns (Some q, None)) ->
  (forall m, In m (Miners c) -> exists y, scores E feeCategory ft (getQuote E c m) y)
  /\ exists m fee,
       In m (Miners c)
       /\ scores E feeCategory ft (getQuote E c m) (q, fee)
       /\ forall m' y, In m' (Miners c) ->
                       scores E feeCategory ft (getQuote E c m') y -> fee <= snd y.
Proof.
  intros Hne Hbest.
  destruct (BestQuote_winner E c feeCategory ft q Hne Hbest)
    as (results & x & l & Hperm & Hscored & ->).
  assert (Hall : forall m, In m (Miners c) ->
                   exists y, In y (x :: l) /\ scores E feeCategory ft (getQuote E c m) y).
  { intros m Hm. apply (Forall2_In_left _ results (x :: l)); [exact Hscored |].
    apply (Permutation_in _ (Permutation_sym Hperm)). now apply in_map. }
  split.
  - intros m Hm. destruct (Hall m Hm) as (y & _ & Hy). now exists y.
  - destruct (Forall2_In_right _ results (x :: l) (firstMin x l) Hscored (firstMin_In l x))
      as (result & Hin & Hwin).
    apply (Permutation_in _ Hperm) in Hin. apply in_map_iff in Hin.
    destruct Hin as (m & <- & Hm).
    exists m, (snd (firstMin x l)). split; [exact Hm |]. split.
    + now destruct (firstMin x l).
    + intros m' y Hm' Hy. destruct (Hall m' Hm') as (y' & Hin' & Hy').
      rewrite (scores_unique E feeCategory ft _ y y' Hy Hy').
      now apply firstMin_le.
Qed.

(** X12: [BestQuote] returns either a quote and no error or an error and no
    quote, never both and never neither, unless the fee calculator
    panics. *)
Theorem BestQuote_quote_or_error
    (E : Collaborators) (c : Client) (feeCategory ft : string)
    (out : outcome (option FeeQuoteResponse * option error)) :
  BestQuote E c feeCategory ft out ->
  (exists q, out = Returns (Some q, None))
  \/ (exists e, out = Returns (None, Some e))
  \/ (exists p, out = Panics p).
Proof.
  intros (results & _ & <-). apply loop_outcomes.
Qed.

Lemma BestQuote_quote_or_error_witness :
  let c := Symbolic.clientOf ["alpha"; "html"] in
  let out : outcome (option FeeQuoteResponse * option error) :=
    Returns (None, Some (errors_New "invalid character '<' looking for beginning of value")) in
  BestQuote Symbolic.world c "relay" "data" out
  /\ ((exists q, out = Returns (Some q, None))
      \/ (exists e, out = Returns (None, Some e))
      \/ (exists p, out = Panics p)).
Proof.
  intros c out.
  assert (H0 : BestQuote Symbolic.world c "relay" "data" out).
  { exists (map (getQuote Symbolic.world c) [Symbolic.miner "html"; Symbolic.miner "alpha"]).
    split; [apply perm_swap | evaluate]. }
  refine (conj H0 _).
  exact (BestQuote_quote_or_error Symbolic.world c "relay" "data" out H0).
Defined.

(** X13: the aggregation is all or nothing in every drain order: when
    [BestQuote] returns a quote for a client with miners, the result of
    every miner fetched, parsed and scored without error, the quote is the
    parsed response of one of the miners, and no miner's fee at the
    reference size is below its fee. *)
Theorem BestQuote_all_or_nothing
    (E : Collaborators) (c : Client) (feeCategory ft : string) (q : FeeQuoteResponse) :
  Miners c <> [] ->
  BestQuote E c feeCategory ft (Returns (Some q, None)) ->
  (forall m, In m (Miners c) -> exists y, scores E feeCategory ft (getQuote E c m) y)
  /\ exists m fee,
       In m (Miners c)
       /\ scores E feeCategory ft (getQuote E c m) (q, fee)
       /\ forall m' y, In m' (Miners c) ->
                       scores E feeCategory ft (getQuote E c m') y -> fee <= snd y.
Proof.
  apply BestQuote_winner_least.
Qed.

Lemma BestQuote_all_or_nothing_witness :
  let c := Symbolic.clientOf ["alpha"; "negative"] in
  let q := fst (parseResponseIntoQuote Symbolic.world
                  (getQuote Symbolic.world c (Symbolic.miner "negative"))) in
  Miners c <> []
  /\ BestQuote Symbolic.world c "mining" "standard" (Returns (Some q, None))
  /\ exists m fee,
       In m (Miners c)
       /\ scores Symbolic.world "mining" "standard" (getQuote Symbolic.world c m) (q, fee)
       /\ forall m' y, In m' (Miners c) ->
                       scores Symbolic.world "mining" "standard"
                         (getQuote Symbolic.world c m') y -> fee <= snd y.
Proof.
  intros c q.
  assert (H0 : Miners c <> []) by discriminate.
  assert (H1 : BestQuote Symbolic.world c "mining" "standard" (Returns (Some q, None))).
  { exists (map (getQuote Symbolic.world c) (Miners c)).
    split; [apply Permutation_refl | evaluate]. }
  refine (conj H0 (conj H1 _)).
  exact (proj2 (BestQuote_all_or_nothing Symbolic.world c "mining" "standard" q H0 H1)).
Defined.

Lemma GetFee_success_has_fees (f : option FeePayload) (feeCategory ft : string)
    (txBytes fee : Z) :
  GetFee f feeCategory ft txBytes = Returns (fee, None) ->
  exists schedule, f = Some schedule /\ Fees schedule <> [].
Proof.
  unfold GetFee.
  destruct (negb (EqualFold ft FeeTypeData) && negb (EqualFold ft FeeTypeStandard));
    [discriminate |].
  destruct (negb (EqualFold feeCategory FeeCategoryMining)
            && negb (EqualFold feeCategory FeeCategoryRelay)); [discriminate |].
  destruct f as [schedule |]; [| discriminate].
  intros H. exists schedule. split; [reflexivity |].
  intros Hnil. rewrite Hnil in H. discriminate.
Qed.

(** X14: what [BestQuote] accepts from a single answer, [FeeQuote] accepts
    too: if the drain of the one result [result] returns a quote, then
    [FeeQuote] returns that same quote for a miner whenever the transport
    answers its own request with that same [result] (the two calls make
    separate requests, so this is an assumption on the transport). *)
Theorem BestQuote_single_result_is_FeeQuote
    (E : Collaborators) (c : Client) (m : Miner) (result : feeResult)
    (feeCategory ft : string) (q : FeeQuoteResponse) :
  getQuote E c m = result ->
  BestQuote_drain E feeCategory ft [result] = Returns (Some q, None) ->
  FeeQuote E c (Some m) = (Some q, None).
Proof.
  intros Hsame Hdrain.
  destruct (loop_quote_scored E feeCategory ft [result] q _ _ Hdrain) as (scored & Hscored).
  inversion Hscored as [| ? x ? l Hx Hl]; subst. inversion Hl; subst.
  rewrite (drain_scored E feeCategory ft _ x [] Hscored) in Hdrain.
  simpl in Hdrain. injection Hdrain as <-.
  destruct Hx as (Hfetch & Hparse & Hfee).
  destruct (GetFee_success_has_fees _ _ _ _ _ Hfee) as (schedule & Hquote & Hfees).
  unfold FeeQuote. rewrite Hfetch, Hparse, Hquote.
  destruct (Fees schedule); [contradiction | reflexivity].
Qed.

Lemma BestQuote_single_result_is_FeeQuote_witness :
  let c := Symbolic.clientOf ["forged"] in
  let m := Symbolic.miner "forged" in
  let result := getQuote Symbolic.world c m in
  let q := fst (parseResponseIntoQuote Symbolic.world result) in
  getQuote Symbolic.world c m = result
  /\ BestQuote_drain Symbolic.world "relay" "standard" [result] = Returns (Some q, None)
  /\ FeeQuote Symbolic.world c (Some m) = (Some q, None).
Proof.
  intros c m result q.
  assert (H0 : getQuote Symbolic.world c m = result) by reflexivity.
  assert (H1 : BestQuote_drain Symbolic.world "relay" "standard" [result]
               = Returns (Some q, None)) by evaluate.
  refine (conj H0 (conj H1 _)).
  exact (BestQuote_single_result_is_FeeQuote Symbolic.world c m result
           "relay" "standard" q H0 H1).
Defined.

(** X15: the drain order decides which quote wins a tie, not what it costs:
    any two quotes that [BestQuote] can return for the same client, category
    and fee type have the same fee at the reference size. *)
Theorem BestQuote_fee_is_order_independent
    (E : Collaborators) (c : Client) (feeCategory ft : string)
    (q1 q2 : FeeQuoteResponse) :
  BestQuote E c feeCategory ft (Returns (Some q1, None)) ->
  BestQuote E c feeCategory ft (Returns (Some q2, None)) ->
  GetFee (Quote q1) feeCategory ft referenceBytes
  = GetFee (Quote q2) feeCategory ft referenceBytes.
Proof.
  intros H1 H2.
  destruct (Miners c) as [| m0 ms] eqn:Hminers.
  - destruct H1 as (r1 & Hp1 & Hd1), H2 as (r2 & Hp2 & Hd2).
    rewrite Hminers in Hp1, Hp2. simpl in Hp1, Hp2.
    apply Permutation_sym, Permutation_nil in Hp1.
    apply Permutation_sym, Permutation_nil in Hp2. subst r1 r2.
    rewrite Hd1 in Hd2. now injection Hd2 as ->.
  - assert (Hne : Miners c <> []) by (rewrite Hminers; discriminate).
    destruct (BestQuote_winner_least E c feeCategory ft q1 Hne H1)
      as (_ & m1 & fee1 & Hm1 & Hs1 & Hle1).
    destruct (BestQuote_winner_least E c feeCategory ft q2 Hne H2)
      as (_ & m2 & fee2 & Hm2 & Hs2 & Hle2).
    pose proof (Hle1 m2 _ Hm2 Hs2) as Ha. pose proof (Hle2 m1 _ Hm1 Hs1) as Hb.
    simpl in Ha, Hb. assert (fee1 = fee2) by lia. subst fee2.
    destruct Hs1 as (_ & _ & Hf1), Hs2 as (_ & _ & Hf2). simpl in Hf1, Hf2.
    now rewrite Hf1, Hf2.
Qed.

Lemma BestQuote_fee_is_order_independent_witness :
  let c := Symbolic.clientOf ["beta"; "forged"] in
  let quote := fun name =>
    fst (parseResponseIntoQuote Symbolic.world
           (getQuote Symbolic.world c (Symbolic.miner name))) in
  BestQuote Symbolic.world c "mining" "standard" (Returns (Some (quote "beta"), None))
  /\ BestQuote Symbolic.world c "mining" "standard" (Returns (Some (quote "forged"), None))
  /\ quote "beta" <> quote "forged"
  /\ GetFee (Quote (quote "beta")) "mining" "standard" referenceBytes
     = GetFee (Quote (quote "forged")) "mining" "standard" referenceBytes.
Proof.
  intros c quote.
  assert (H0 : BestQuote Symbolic.world c "mining" "standard"
                 (Returns (Some (quote "beta"), None))).
  { exists (map (getQuote Symbolic.world c) [Symbolic.miner "beta"; Symbolic.miner "forged"]).
    split; [apply Permutation_refl | evaluate]. }
  assert (H1 : BestQuote Symbolic.world c "mining" "standard"
                 (Returns (Some (quote "forged"), None))).
  { exists (map (getQuote Symbolic.world c) [Symbolic.miner "forged"; Symbolic.miner "beta"]).
    split; [apply perm_swap | evaluate]. }
  assert (H2 : quote "beta" <> quote "forged") by (vm_compute; discriminate).
  refine (conj H0 (conj H1 (conj H2 _))).
  exact (BestQuote_fee_is_order_independent Symbolic.world c "mining" "standard"
           (quote "beta") (quote "forged") H0 H1).
Defined.

(** ** The second aggregation loop *)

Section Uint64.

Variable internalResult : Type.
Variable ResponseError : internalResult -> option error.
Variable parseQuote : internalResult -> outcome (FeeQuoteResponse * option error).
Variable CalculateFee :
  option FeePayload -> string -> string -> Z -> outcome (Z * option error).
Variables feeCategory ft : string.

Lemma uint64_loop_rated_prefix (pre : list internalResult)
    (scored : list (FeeQuoteResponse * Z)) (rest : list internalResult) :
  Forall2 (rated internalResult ResponseError parseQuote CalculateFee feeCategory ft)
    pre scored ->
  forall (bestRate : Z) (bestQuote : FeeQuoteResponse),
    BestQuote_uint64_loop internalResult ResponseError parseQuote CalculateFee
      feeCategory ft (pre ++ rest) bestRate bestQuote
    = BestQuote_uint64_loop internalResult ResponseError parseQuote CalculateFee
        feeCategory ft rest
        (snd (fold_left keepBest scored (bestQuote, bestRate)))
        (fst (fold_left keepBest scored (bestQuote, bestRate))).
Proof.
  induction 1 as [| result x pre scored (Herr & Hparse & Hfee) _ IH];
    intros bestRate bestQuote; [reflexivity |].
  simpl. rewrite Herr, Hparse. simpl. rewrite Hfee. simpl.
  assert (Hstep : keepBest (bestQuote, bestRate) x
                  = if (bestRate =? 0) || (snd x <? bestRate)
                    then (fst x, snd x) else (bestQuote, bestRate)).
  { unfold keepBest. simpl. destruct (bestRate =? 0); simpl; [now destruct x |].
    destruct (snd x <? bestRate); [now destruct x | reflexivity]. }
  rewrite Hstep.
  destruct ((bestRate =? 0) || (snd x <? bestRate)); apply IH.
Qed.

(** X16: the loop of [best_quote.go] selects as the one of [fee_quote.go]
    does: over results that all parse and rate without error, at rates
    other than 0, it returns the first quote of least rate in drain order
    (every quote drained before it has a strictly larger rate, none drained
    after it a smaller one), whatever the helpers compute. *)
Theorem BestQuote_uint64_returns_minimum
    (results : list internalResult) (scored : list (FeeQuoteResponse * Z)) :
  results <> [] ->
  Forall2 (rated internalResult ResponseError parseQuote CalculateFee feeCategory ft)
    results scored ->
  Forall (fun x => snd x <> 0) scored ->
  exists pre best post,
    scored = (pre ++ best :: post)%list
    /\ BestQuote_uint64_drain internalResult ResponseError parseQuote CalculateFee
         feeCategory ft results
       = Returns (Some (fst best), None)
    /\ Forall (fun x => snd best < snd x) pre
    /\ Forall (fun x => snd best <= snd x) post.
Proof.
  intros Hne Hrated Hnz.
  destruct scored as [| x l]; [inversion Hrated; subst; contradiction |].
  destruct (firstMin_first l x) as (pre & post & Heq & Hpre & Hpost).
  exists pre, (firstMin x l), post.
  split; [exact Heq |]. split; [| split; assumption].
  unfold BestQuote_uint64_drain. rewrite <- (app_nil_r results).
  rewrite (uint64_loop_rated_prefix results (x :: l) [] Hrated).
  inversion Hnz as [| ? ? Hx Hl]; subst.
  simpl fold_left. unfold keepBest at 2 4. simpl.
  rewrite keepBest_firstMin by assumption. reflexivity.
Qed.

End Uint64.

Lemma BestQuote_uint64_returns_minimum_witness :
  let c := Symbolic.clientOf ["alpha"; "beta"] in
  let fetch := getQuote Symbolic.world c in
  let parse := fun result => Returns (parseResponseIntoQuote Symbolic.world result) in
  let quote := fun name =>
    fst (parseResponseIntoQuote Symbolic.world (fetch (Symbolic.miner name))) in
  let results := map fetch (Miners c) in
  let scored := [(quote "alpha", 500); (quote "beta", 400)] in
  results <> []
  /\ Forall2 (rated feeResult (fun result => Error (Response result)) parse GetFee
                "mining" "standard") results scored
  /\ Forall (fun x => snd x <> 0) scored
  /\ exists pre best post,
       scored = (pre ++ best :: post)%list
       /\ BestQuote_uint64_drain feeResult (fun result => Error (Response result)) parse
            GetFee "mining" "standard" results
          = Returns (Some (fst best), None)
       /\ Forall (fun x => snd best < snd x) pre
       /\ Forall (fun x => snd best <= snd x) post.
Proof.
  intros c fetch parse quote results scored.
  assert (H0 : results <> []) by discriminate.
  assert (H1 : Forall2 (rated feeResult (fun result => Error (Response result)) parse GetFee
                          "mining" "standard") results scored).
  { constructor; [scores_by_evaluation |].
    constructor; [scores_by_evaluation | constructor]. }
  assert (H2 : Forall (fun x => snd x <> 0) scored).
  { constructor; [discriminate |]. constructor; [discriminate | constructor]. }
  refine (conj H0 (conj H1 (conj H2 _))).
  exact (BestQuote_uint64_returns_minimum feeResult (fun result => Error (Response result))
           parse GetFee "mining" "standard" results scored H0 H1 H2).
Defined.
